(** * typescript-score-check: the metric and scoring engine

    A shallow embedding of [functions/helper.ts] and of the per-file action
    of [index.ts].

    Numbers.  JavaScript numbers are IEEE doubles; here they are exact
    rationals ([Q]), and [==] is equality of the represented value.  Lengths
    and counters are natural numbers, injected with [num] where the source
    divides them.  No division of the engine has a zero divisor, so no
    [NaN] arises.

    Syntax trees.  The tree comes from ts-morph.  A node carries its kind
    tag, its flag set, its children (the order of [forEachChild]) and the
    results of the kind-specific accessors the engine queries.  The one
    child relation is that of the parse tree: JSDoc comments, which
    ts-morph also searches for keyword and token kinds, are not part of
    it, and [getFunctions] and [getMembers] list every declaration of the
    tree, overload signatures included.  The properties that depend on
    what the provider counts or lists are stated on the functions
    [avoidAnyOf], [returnTypesOf], [accessModifiersOf] and
    [complexityOver], which take the provider's answer as their argument.

    Calls.  An accessor called on a statically typed node
    ([getReturnTypeNode] on a [FunctionDeclaration], [getParent],
    [getFlags], [getKind]) is a total function.  An accessor read through
    [as any] ([getModifiers], [getOperatorToken], [getStructure]) may be
    absent, and calling an absent one throws: these calls live in the
    [completion] monad, and so do the four metric functions that make
    them. *)

From Stdlib Require Import String List Bool Arith NArith ZArith QArith Qminmax Lia Lqa.
Import ListNotations.

Set Implicit Arguments.
Set Warnings "-register-all".

(* ================================================================== *)
(** ** JavaScript values the engine relies on *)

Module Js.

(** The only exception the engine could meet: calling a property that is
    not a function. *)
Inductive Error : Type := TypeError_not_a_function.

Inductive completion (A : Type) : Type :=
| Normal (a : A)
| Throw (e : Error).
Arguments Normal {A} a.
Arguments Throw {A} e.

Definition ret {A} (a : A) : completion A := Normal a.

Definition bind {A B} (c : completion A) (k : A -> completion B) : completion B :=
  match c with
  | Normal a => k a
  | Throw e => Throw e
  end.

(** [returns c P]: [c] completes normally with a value satisfying [P]. *)
Definition returns {A} (c : completion A) (P : A -> Prop) : Prop :=
  match c with
  | Normal a => P a
  | Throw _ => False
  end.

(** A property read through [as any]: [None] when the object has no such
    method, [Some r] when it has one and calling it yields [r]. *)
Definition method (R : Type) : Type := option R.

(** [typeof x.m === "function"] *)
Definition typeof_function {R} (m : method R) : bool :=
  match m with Some _ => true | None => false end.

(** [x.m()] *)
Definition call {R} (m : method R) : completion R :=
  match m with
  | Some r => Normal r
  | None => Throw TypeError_not_a_function
  end.

(** [a && b] on booleans: [b] is evaluated only when [a] holds. *)
Definition and_then (a : bool) (b : completion bool) : completion bool :=
  if a then b else ret false.

(** [list.forEach(body)] where [body] updates the local variables [S]. *)
Fixpoint forEach {A S} (l : list A) (body : A -> S -> completion S) (s : S)
  : completion S :=
  match l with
  | [] => ret s
  | x :: rest => bind (body x s) (forEach rest body)
  end.

(** [list.filter(p)] *)
Fixpoint filterM {A} (p : A -> completion bool) (l : list A)
  : completion (list A) :=
  match l with
  | [] => ret []
  | x :: rest =>
      bind (p x) (fun keep =>
      bind (filterM p rest) (fun kept =>
      ret (if keep then x :: kept else kept)))
  end.

(** [n || 1] on a count. *)
Definition or_one (n : nat) : nat := if n =? 0 then 1 else n.

(** A [Record<string, number>]: its own entries, in insertion order. *)
Definition object : Type := list (string * Q).

(** [Object.keys(o)] and [Object.entries(o)] *)
Definition keys (o : object) : list string := map fst o.
Definition entries (o : object) : list (string * Q) := o.

(** [o[key]]: [None] is [undefined].  The names are those of own
    properties; what an object inherits from its prototype is left out. *)
Fixpoint get (o : object) (key : string) : option Q :=
  match o with
  | [] => None
  | (k, v) :: rest => if String.eqb k key then Some v else get rest key
  end.

(** An object has each key once. *)
Definition wf (o : object) : Prop := NoDup (keys o).

(** [x < y] on numbers. *)
Definition ltb (x y : Q) : bool :=
  (Qnum x * QDen y <? Qnum y * QDen x)%Z.

(** [v < 1] where [v] may be [undefined]: the comparison is then false. *)
Definition lt_one (v : option Q) : bool :=
  match v with
  | Some q => ltb q 1
  | None => false
  end.

(** A count as a number. *)
Definition num (n : nat) : Q := inject_Z (Z.of_nat n).

End Js.

Import Js.

Declare Scope js_scope.
Notation "x <- c ;; k" := (bind c (fun x => k))
  (at level 61, c at next level, right associativity) : js_scope.
Notation "' pat <- c ;; k" := (bind c (fun x => match x with pat => k end))
  (at level 61, pat pattern, c at next level, right associativity) : js_scope.

(* ================================================================== *)
(** ** The syntax-tree provider (ts-morph) *)

Module TsMorph.

(** The kind tags the engine asks for, those the provider's structural
    accessors select, a few more to write trees with, and the rest by
    their code. *)
Inductive SyntaxKind : Type :=
| AnyKeyword | TypeReference
| IfStatement | SwitchStatement | ForStatement | ForInStatement
| ForOfStatement | WhileStatement | DoStatement | TryStatement
| CatchClause | ConditionalExpression | BinaryExpression
| AmpersandAmpersandToken | BarBarToken
| QuestionDotToken | QuestionQuestionToken
| VariableDeclaration | VariableDeclarationList
| TypeAssertionExpression | NonNullExpression | AsExpression
| CallExpression | PropertyDeclaration
| SourceFile | FunctionDeclaration | ClassDeclaration
| MethodDeclaration | Constructor | GetAccessor | SetAccessor
| ClassStaticBlockDeclaration
| Identifier | ParameterDeclaration | Block | ReturnStatement | VariableStatement
| ExpressionStatement | TypeAliasDeclaration | UnionType
| PropertyAccessExpression | PublicKeyword | EndOfFileToken
| OtherKind (code : N).

Definition SyntaxKind_eq_dec (a b : SyntaxKind) : {a = b} + {a <> b}.
Proof. decide equality. apply N.eq_dec. Defined.

(** [a === b] on kind tags. *)
Definition kind_eqb (a b : SyntaxKind) : bool :=
  if SyntaxKind_eq_dec a b then true else false.

(** [ts.NodeFlags]: bit sets. *)
Module NodeFlags.
Definition Let : N := 1.
Definition Const : N := 2.
End NodeFlags.

(** What [getStructure()] exposes to the engine. *)
Record Structure : Type := { isReadonly : bool }.

(** A node.  [getReturnTypeNode] is [None] when the function has no
    annotation ([undefined]).  [getModifiers], [getOperatorToken] and
    [getStructure] are read through [as any] by the engine: there [None]
    means the node has no such method. *)
Inductive Node : Type := mkNode {
  getKind : SyntaxKind;
  getFlags : N;
  children : list Node;
  getReturnTypeNode : option Node;
  getModifiers : method (list Node);
  getOperatorToken : method Node;
  getStructure : method Structure
}.

(** A node reached from the file, with the node it was reached from. *)
Record Descendant : Type := { getParent : Node; node : Node }.

(** All nodes below [n], in document order. *)
Fixpoint getDescendants (n : Node) : list Descendant :=
  flat_map (fun c => {| getParent := n; node := c |} :: getDescendants c)
           (children n).

Definition getDescendantsOfKind (kind : SyntaxKind) (n : Node) : list Descendant :=
  filter (fun d => kind_eqb (getKind (node d)) kind) (getDescendants n).

Definition childrenOfKind (kind : SyntaxKind) (n : Node) : list Node :=
  filter (fun c => kind_eqb (getKind c) kind) (children n).

(** [sourceFile.getFunctions()] and [sourceFile.getClasses()]: the
    declarations among the file's statements. *)
Definition getFunctions (sourceFile : Node) : list Node :=
  childrenOfKind FunctionDeclaration sourceFile.

Definition getClasses (sourceFile : Node) : list Node :=
  childrenOfKind ClassDeclaration sourceFile.

(** [ClassMemberTypes] *)
Definition isClassMemberKind (k : SyntaxKind) : bool :=
  existsb (kind_eqb k)
    [MethodDeclaration; PropertyDeclaration; GetAccessor; SetAccessor;
     Constructor; ClassStaticBlockDeclaration].

(** [cls.getMembers()] *)
Definition getMembers (cls : Node) : list Node :=
  filter (fun c => isClassMemberKind (getKind c)) (children cls).

End TsMorph.

Import TsMorph.

Local Open Scope Q_scope.
Local Open Scope js_scope.

(* ================================================================== *)
(** ** functions/helper.ts *)

(** The ten metric names, in the order the source lists them. *)
Definition metricNames : list string :=
  ["avoidAny"; "returnTypes"; "accessModifiers"; "complexity"; "nesting";
   "preferConst"; "avoidAssertions"; "useReadonly"; "avoidVar";
   "optionalChaining"]%string.

Definition generateSuggestions (metrics : object) : list string :=
  let suggestions : list string := [] in
  let suggestions :=
    if lt_one (get metrics "avoidAny")
    then suggestions ++ ["Replace `any` with specific types or `unknown`."%string]
    else suggestions in
  let suggestions :=
    if lt_one (get metrics "returnTypes")
    then suggestions ++ ["Add explicit return types to functions."%string]
    else suggestions in
  let suggestions :=
    if lt_one (get metrics "accessModifiers")
    then suggestions ++ ["Add access modifiers (public/private) to class members."%string]
    else suggestions in
  let suggestions :=
    if lt_one (get metrics "complexity")
    then suggestions ++ ["Simplify functions with high complexity by extracting logic."%string]
    else suggestions in
  let suggestions :=
    if lt_one (get metrics "nesting")
    then suggestions ++ ["Reduce nesting with early returns or function extraction."%string]
    else suggestions in
  let suggestions :=
    if lt_one (get metrics "preferConst")
    then suggestions ++ ["Use `const` instead of `let` for non-reassigned variables."%string]
    else suggestions in
  let suggestions :=
    if lt_one (get metrics "avoidAssertions")
    then suggestions ++ ["Replace type assertions with type guards."%string]
    else suggestions in
  let suggestions :=
    if lt_one (get metrics "useReadonly")
    then suggestions ++ ["Mark immutable properties as `readonly`."%string]
    else suggestions in
  let suggestions :=
    if lt_one (get metrics "avoidVar")
    then suggestions ++ ["Replace `var` with `let` or `const`."%string]
    else suggestions in
  let suggestions :=
    if lt_one (get metrics "optionalChaining")
    then suggestions ++
         ["Use optional chaining (`?.`) and nullish coalescing (`??`) for null checks."%string]
    else suggestions in
  suggestions.

Definition weights : object :=
  [("avoidAny", 10); ("returnTypes", 10); ("accessModifiers", 10);
   ("complexity", 10); ("nesting", 10); ("preferConst", 10);
   ("avoidAssertions", 10); ("useReadonly", 10); ("avoidVar", 10);
   ("optionalChaining", 10)]%string.

Definition calculateAvoidAny (sourceFile : Node) : Q :=
  let anyCount := length (getDescendantsOfKind AnyKeyword sourceFile) in
  let typeRefCount := length (getDescendantsOfKind TypeReference sourceFile) in
  let denominator :=
    if (0 <? typeRefCount)%nat then typeRefCount
    else if (0 <? anyCount)%nat then anyCount else 1%nat in
  1 - num anyCount / num denominator.

Definition calculateReturnTypes (sourceFile : Node) : Q :=
  let functions := getFunctions sourceFile in
  if (length functions =? 0)%nat then 1
  else
    let withReturn :=
      length (filter (fun f => match getReturnTypeNode f with
                               | Some _ => true
                               | None => false
                               end) functions) in
    num withReturn / num (length functions).

(** The test of [calculateAccessModifiers] on one member. *)
Definition hasModifiers (member : Node) : completion bool :=
  and_then (typeof_function (getModifiers member))
           (modifiers <- call (getModifiers member) ;;
            ret (0 <? length modifiers)%nat).

Definition calculateAccessModifiers (sourceFile : Node) : completion Q :=
  let classes := getClasses sourceFile in
  if (length classes =? 0)%nat then ret 1
  else
    '(members, withModifiers) <-
      forEach classes (fun cls counters =>
        forEach (getMembers cls) (fun member '(members, withModifiers) =>
          let members := S members in
          modified <- hasModifiers member ;;
          ret (members, if modified then S withModifiers else withModifiers))
        counters)
      (0%nat, 0%nat) ;;
    ret (if (members =? 0)%nat then 1 else num withModifiers / num members).

(** The test of the two [filter]s of [calculateComplexity], and of the loop
    of [calculateOptionalChaining], on one binary expression. *)
Definition hasOperator (operator : SyntaxKind) (expr : Node) : completion bool :=
  and_then (typeof_function (getOperatorToken expr))
           (token <- call (getOperatorToken expr) ;;
            ret (kind_eqb (getKind token) operator)).

Definition countOfKind (kind : SyntaxKind) (n : Node) : nat :=
  length (getDescendantsOfKind kind n).

Definition calculateComplexity (sourceFile : Node) : completion Q :=
  let functions := getFunctions sourceFile in
  if (length functions =? 0)%nat then ret 1
  else
    totalComplexity <-
      forEach functions (fun f totalComplexity =>
        let complexity := 1%nat in
        let complexity := (complexity + countOfKind IfStatement f)%nat in
        let complexity := (complexity + countOfKind SwitchStatement f)%nat in
        let complexity := (complexity + countOfKind ForStatement f)%nat in
        let complexity := (complexity + countOfKind ForInStatement f)%nat in
        let complexity := (complexity + countOfKind ForOfStatement f)%nat in
        let complexity := (complexity + countOfKind WhileStatement f)%nat in
        let complexity := (complexity + countOfKind DoStatement f)%nat in
        let complexity := (complexity + countOfKind TryStatement f)%nat in
        let complexity := (complexity + countOfKind CatchClause f)%nat in
        let complexity := (complexity + countOfKind ConditionalExpression f)%nat in
        ands <- filterM (fun expr => hasOperator AmpersandAmpersandToken (node expr))
                        (getDescendantsOfKind BinaryExpression f) ;;
        let complexity := (complexity + length ands)%nat in
        ors <- filterM (fun expr => hasOperator BarBarToken (node expr))
                       (getDescendantsOfKind BinaryExpression f) ;;
        let complexity := (complexity + length ors)%nat in
        ret (totalComplexity + complexity)%nat)
      0%nat ;;
    let avgComplexity := num totalComplexity / num (length functions) in
    ret (Qmax 0 (1 - (avgComplexity - 1) / 5)).

(** The kinds that deepen the nesting. *)
Definition nestingKinds : list SyntaxKind :=
  [IfStatement; SwitchStatement; ForStatement; ForInStatement;
   ForOfStatement; WhileStatement; DoStatement].

(** The local function [getNesting] of [calculateNesting]. *)
Fixpoint getNesting (n : Node) (current : nat) : nat :=
  fold_left (fun localMax child =>
               if existsb (kind_eqb (getKind child)) nestingKinds
               then Nat.max localMax (getNesting child (current + 1))
               else Nat.max localMax (getNesting child current))
            (children n) current.

Definition calculateNesting (sourceFile : Node) : Q :=
  let functions := getFunctions sourceFile in
  if (length functions =? 0)%nat then 1
  else
    let maxNesting :=
      fold_left (fun maxNesting f => Nat.max maxNesting (getNesting f 0))
                functions 0%nat in
    Qmax 0 (1 - num maxNesting / 4).

(** [kind === VariableDeclarationList && (flags & mask)] on the parent of a
    declaration. *)
Definition parentIsListWith (mask : N) (v : Descendant) : bool :=
  kind_eqb (getKind (getParent v)) VariableDeclarationList
  && negb (N.land (getFlags (getParent v)) mask =? 0)%N.

Definition calculatePreferConst (sourceFile : Node) : Q :=
  let lets := filter (parentIsListWith NodeFlags.Let)
                     (getDescendantsOfKind VariableDeclaration sourceFile) in
  let consts := filter (parentIsListWith NodeFlags.Const)
                       (getDescendantsOfKind VariableDeclaration sourceFile) in
  let total := (length lets + length consts)%nat in
  if (total =? 0)%nat then 1 else num (length consts) / num total.

Definition calculateAvoidAssertions (sourceFile : Node) : Q :=
  let assertions :=
    (countOfKind TypeAssertionExpression sourceFile
     + countOfKind NonNullExpression sourceFile)%nat in
  let asExpressions := countOfKind AsExpression sourceFile in
  let callExpressions := countOfKind CallExpression sourceFile in
  let binaryExpressions := countOfKind BinaryExpression sourceFile in
  let totalExpressions :=
    or_one (asExpressions + callExpressions + binaryExpressions) in
  1 - num assertions / num totalExpressions.

(** The test of [calculateUseReadonly] on one property. *)
Definition structureIsReadonly (p : Node) : completion bool :=
  and_then (typeof_function (getStructure p))
           (structure <- call (getStructure p) ;;
            ret (Bool.eqb (isReadonly structure) true)).

Definition calculateUseReadonly (sourceFile : Node) : completion Q :=
  let properties := getDescendantsOfKind PropertyDeclaration sourceFile in
  if (length properties =? 0)%nat then ret 1
  else
    readonly <- filterM (fun p => structureIsReadonly (node p)) properties ;;
    let readonlyCount := length readonly in
    ret (num readonlyCount / num (length properties)).

(** The test inside [some] of [calculateAvoidVar]. *)
Definition isLegacyDeclaration (v : Descendant) : bool :=
  kind_eqb (getKind (getParent v)) VariableDeclarationList
  && (N.land (getFlags (getParent v)) (N.lor NodeFlags.Let NodeFlags.Const) =? 0)%N.

Definition calculateAvoidVar (sourceFile : Node) : Q :=
  if existsb isLegacyDeclaration
             (getDescendantsOfKind VariableDeclaration sourceFile)
  then 0 else 1.

Definition calculateOptionalChaining (sourceFile : Node) : completion Q :=
  let manualNullChecks := 0%nat in
  let modernOperators := 0%nat in
  manualNullChecks <-
    forEach (getDescendantsOfKind BinaryExpression sourceFile)
            (fun e manualNullChecks =>
               manual <- hasOperator AmpersandAmpersandToken (node e) ;;
               ret (if manual then S manualNullChecks else manualNullChecks))
            manualNullChecks ;;
  let modernOperators :=
    (modernOperators + countOfKind QuestionDotToken sourceFile)%nat in
  let modernOperators :=
    (modernOperators + countOfKind QuestionQuestionToken sourceFile)%nat in
  let totalNullChecks := or_one (manualNullChecks + modernOperators) in
  ret (num modernOperators / num totalNullChecks).

(** [calculateScore], with the module constant [weights] as an argument. *)
Definition calculateScoreWith (weights metrics : object) : Q :=
  let weightedSum :=
    fold_left (fun sum '(key, value) =>
                 match get weights key with
                 | Some weight => sum + weight * value
                 | None => sum
                 end)
              (entries metrics) 0 in
  let totalWeight :=
    fold_left (fun sum k =>
                 match get weights k with
                 | Some weight => sum + weight
                 | None => sum   (* not reached: [k] is a key of [weights] *)
                 end)
              (keys weights) 0 in
  if ltb 0 totalWeight then (weightedSum / totalWeight) * 100 else 0.

Definition calculateScore (metrics : object) : Q :=
  calculateScoreWith weights metrics.

(* ================================================================== *)
(** ** index.ts: the action run for each file *)

Record ScoreResult : Type := {
  file : string;
  score : Q;
  metrics : object;
  suggestions : list string
}.

(** The object literal [metrics]: its properties are evaluated in order. *)
Definition collectMetrics (sourceFile : Node) : completion object :=
  let avoidAny := calculateAvoidAny sourceFile in
  let returnTypes := calculateReturnTypes sourceFile in
  accessModifiers <- calculateAccessModifiers sourceFile ;;
  complexity <- calculateComplexity sourceFile ;;
  let nesting := calculateNesting sourceFile in
  let preferConst := calculatePreferConst sourceFile in
  let avoidAssertions := calculateAvoidAssertions sourceFile in
  useReadonly <- calculateUseReadonly sourceFile ;;
  let avoidVar := calculateAvoidVar sourceFile in
  optionalChaining <- calculateOptionalChaining sourceFile ;;
  ret [("avoidAny", avoidAny); ("returnTypes", returnTypes);
       ("accessModifiers", accessModifiers); ("complexity", complexity);
       ("nesting", nesting); ("preferConst", preferConst);
       ("avoidAssertions", avoidAssertions); ("useReadonly", useReadonly);
       ("avoidVar", avoidVar); ("optionalChaining", optionalChaining)]%string.

Definition scoreFile (file : string) (sourceFile : Node) : completion ScoreResult :=
  metrics <- collectMetrics sourceFile ;;
  let score := calculateScore metrics in
  ret {| file := file;
         score := score;
         metrics := metrics;
         suggestions := generateSuggestions metrics |}.

(* ================================================================== *)
(** ** Trees of concrete source files *)

Module Trees.

(** A token or keyword: no children, no kind-specific method. *)
Definition token (kind : SyntaxKind) : Node :=
  mkNode kind 0 [] None None None None.

(** A node that has only children. *)
Definition plain (kind : SyntaxKind) (cs : list Node) : Node :=
  mkNode kind 0 cs None None None None.

(** A declaration that can carry modifiers and has none. *)
Definition declaration (kind : SyntaxKind) (cs : list Node) : Node :=
  mkNode kind 0 cs None (Some []) None None.

Definition sourceFileOf (statements : list Node) : Node :=
  plain SourceFile (statements ++ [token EndOfFileToken]).

(** The empty file. *)
Definition emptyFile : Node := sourceFileOf [].

(** [function f(a: any): any { if (a) { return a; } }] *)
Definition anyFunction : Node :=
  mkNode FunctionDeclaration 0
    [ token Identifier;
      declaration ParameterDeclaration [token Identifier; token AnyKeyword];
      token AnyKeyword;
      plain Block
        [ plain IfStatement
            [ token Identifier;
              plain Block [ plain ReturnStatement [token Identifier] ] ] ] ]
    (Some (token AnyKeyword)) (Some []) None None.

Definition anyFunctionFile : Node := sourceFileOf [anyFunction].

(** [type T = Foo | any | any | any | any | any | any | any | any | any | any;]
    one type reference and ten [any]. *)
Definition manyAnyFile : Node :=
  sourceFileOf
    [ declaration TypeAliasDeclaration
        [ token Identifier;
          plain UnionType
            (plain TypeReference [token Identifier]
             :: repeat (token AnyKeyword) 10) ] ].

(** [x!!;] two non-null assertions, and no [as], call or binary
    expression. *)
Definition nonNullFile : Node :=
  sourceFileOf
    [ plain ExpressionStatement
        [ plain NonNullExpression
            [ plain NonNullExpression [token Identifier] ] ] ].

(** [var x;] *)
Definition varList : Node :=
  plain VariableDeclarationList
    [ plain VariableDeclaration [token Identifier] ].

Definition varFile : Node :=
  sourceFileOf [ declaration VariableStatement [varList] ].

(** The declaration of [var x;], reached from its list. *)
Definition varFile_declaration : Descendant :=
  {| getParent := varList;
     node := plain VariableDeclaration [token Identifier] |}.

(** [class C { static {} }]: the static block has no [getModifiers]. *)
Definition staticBlock : Node :=
  plain ClassStaticBlockDeclaration [plain Block []].

Definition staticBlockFile : Node :=
  sourceFileOf
    [ declaration ClassDeclaration [token Identifier; staticBlock] ].

(** The metric set of a file that is perfect but for its nesting. *)
Definition nestedMetrics : object :=
  [("avoidAny", 1); ("returnTypes", 1); ("accessModifiers", 1);
   ("complexity", 1); ("nesting", 0.75); ("preferConst", 1);
   ("avoidAssertions", 1); ("useReadonly", 1); ("avoidVar", 1);
   ("optionalChaining", 1)]%string.


End Trees.

Import Trees.

(* ================================================================== *)
(** ** What the guarded queries and the loops compute *)

(** A member counts when it has the accessor and the accessor yields a
    non-empty list; without the accessor it does not count. *)
Definition memberCounts (member : Node) : bool :=
  match getModifiers member with
  | Some modifiers => (0 <? length modifiers)%nat
  | None => false
  end.

Definition operatorIs (operator : SyntaxKind) (expr : Node) : bool :=
  match getOperatorToken expr with
  | Some token => kind_eqb (getKind token) operator
  | None => false
  end.

Definition propertyCounts (p : Node) : bool :=
  match getStructure p with
  | Some structure => isReadonly structure
  | None => false
  end.

Definition allMembers (sourceFile : Node) : list Node :=
  flat_map getMembers (getClasses sourceFile).

Definition accessModifiersValue (sourceFile : Node) : Q :=
  if (length (getClasses sourceFile) =? 0)%nat then 1
  else if (length (allMembers sourceFile) =? 0)%nat then 1
  else num (length (filter memberCounts (allMembers sourceFile)))
       / num (length (allMembers sourceFile)).

Definition operatorCount (operator : SyntaxKind) (n : Node) : nat :=
  length (filter (fun e => operatorIs operator (node e))
                 (getDescendantsOfKind BinaryExpression n)).

(** The cyclomatic count of one function. *)
Definition complexityOf (f : Node) : nat :=
  (1 + countOfKind IfStatement f + countOfKind SwitchStatement f
   + countOfKind ForStatement f + countOfKind ForInStatement f
   + countOfKind ForOfStatement f + countOfKind WhileStatement f
   + countOfKind DoStatement f + countOfKind TryStatement f
   + countOfKind CatchClause f + countOfKind ConditionalExpression f
   + operatorCount AmpersandAmpersandToken f
   + operatorCount BarBarToken f)%nat.

Definition totalComplexityOf (functions : list Node) : nat :=
  fold_left (fun total f => (total + complexityOf f)%nat) functions 0%nat.

Definition complexityValue (sourceFile : Node) : Q :=
  if (length (getFunctions sourceFile) =? 0)%nat then 1
  else Qmax 0 (1 - (num (totalComplexityOf (getFunctions sourceFile))
                    / num (length (getFunctions sourceFile)) - 1) / 5).

Definition useReadonlyValue (sourceFile : Node) : Q :=
  let properties := getDescendantsOfKind PropertyDeclaration sourceFile in
  if (length properties =? 0)%nat then 1
  else num (length (filter (fun p => propertyCounts (node p)) properties))
       / num (length properties).

Definition optionalChainingValue (sourceFile : Node) : Q :=
  let modern := (countOfKind QuestionDotToken sourceFile
                 + countOfKind QuestionQuestionToken sourceFile)%nat in
  num modern
  / num (or_one (operatorCount AmpersandAmpersandToken sourceFile + modern)).

(* ================================================================== *)
(** ** The vocabulary of the properties *)

(** A ratio: a number of the closed interval from 0 to 1. *)
Definition isRatio (q : Q) : Prop := 0 <= q /\ q <= 1.

(** The fixed text tied to each metric. *)
Definition suggestionFor (name : string) : string :=
  (if String.eqb name "avoidAny"
   then "Replace `any` with specific types or `unknown`."
   else if String.eqb name "returnTypes"
   then "Add explicit return types to functions."
   else if String.eqb name "accessModifiers"
   then "Add access modifiers (public/private) to class members."
   else if String.eqb name "complexity"
   then "Simplify functions with high complexity by extracting logic."
   else if String.eqb name "nesting"
   then "Reduce nesting with early returns or function extraction."
   else if String.eqb name "preferConst"
   then "Use `const` instead of `let` for non-reassigned variables."
   else if String.eqb name "avoidAssertions"
   then "Replace type assertions with type guards."
   else if String.eqb name "useReadonly"
   then "Mark immutable properties as `readonly`."
   else if String.eqb name "avoidVar"
   then "Replace `var` with `let` or `const`."
   else if String.eqb name "optionalChaining"
   then "Use optional chaining (`?.`) and nullish coalescing (`??`) for null checks."
   else "")%string.

(** The metric [name] of [m] is strictly below 1. *)
Definition belowOne (m : object) (name : string) : bool :=
  match get m name with
  | Some v => if Qlt_le_dec v 1 then true else false
  | None => false
  end.

(** The metric [name] of [m] is 1. *)
Definition isOne (m : object) (name : string) : Prop :=
  exists v, get m name = Some v /\ v == 1.

(** A metric set with all ten metrics. *)
Definition hasAllMetrics (m : object) : Prop :=
  forall name, In name metricNames -> exists v, get m name = Some v.

(** No metric of [m] exceeds 1. *)
Definition atMostOne (m : object) : Prop :=
  forall name v, In name metricNames -> get m name = Some v -> v <= 1.

(** The value of a name in a table, 0 when it has none. *)
Definition valueOf (o : object) (name : string) : Q :=
  match get o name with
  | Some v => v
  | None => 0
  end.

Definition sumOver (names : list string) (f : string -> Q) : Q :=
  fold_right (fun name acc => f name + acc) 0 names.

Definition hasKey (o : object) (name : string) : bool :=
  existsb (String.eqb name) (keys o).

(** The names present in both the metric mapping and the weight table. *)
Definition commonNames (m w : object) : list string :=
  filter (hasKey w) (keys m).

(** The weighted sum over the common names. *)
Definition commonWeightedSum (w m : object) : Q :=
  sumOver (commonNames m w) (fun name => valueOf w name * valueOf m name).


(** The score with the weights of the whole table below the line. *)
Definition tableScore (w m : object) : Q :=
  let total := sumOver (keys w) (valueOf w) in
  if Qlt_le_dec 0 total then commonWeightedSum w m / total * 100 else 0.

(** A variable declaration of a [var] list: its parent is a declaration
    list flagged neither [let] nor [const]. *)
Definition isVarDeclaration (v : Descendant) : Prop :=
  getKind (getParent v) = VariableDeclarationList
  /\ N.land (getFlags (getParent v)) NodeFlags.Let = 0%N
  /\ N.land (getFlags (getParent v)) NodeFlags.Const = 0%N.

(* ================================================================== *)
(** ** The rest of functions/helper.ts: file discovery and the report *)

(** The file system as [readdirSync] and [statSync] show it. *)
Module Fs.

(** The error a call throws: [ENOTDIR] is what [readdirSync] throws on a
    path that is not a directory; the others by their code. *)
Inductive Error : Type :=
| ENOTDIR
| Errno (code : string).

Inductive result (A : Type) : Type :=
| Ok (a : A)
| Fail (e : Error).
Arguments Ok {A} a.
Arguments Fail {A} e.

(** What a path leads to.
    - [NotDirectory]: [statSync] succeeds and [isDirectory()] is false (a
      regular file, also a device or a socket).
    - [Directory listing]: a directory that can be read, with its entries,
      each under its name, in the order the directory lists them.
    - [Unlistable e]: [statSync] succeeds and says directory, and
      [readdirSync] throws [e] (no permission to read it).
    - [Unreachable e]: [statSync] throws [e], and so does [readdirSync]
      (nothing there, a dangling link, no permission to search). *)
Inductive Entry : Type :=
| NotDirectory
| Directory (listing : list (string * Entry))
| Unlistable (e : Error)
| Unreachable (e : Error).

(** [statSync(path).isDirectory()] *)
Definition statSync_isDirectory (e : Entry) : result bool :=
  match e with
  | NotDirectory => Ok false
  | Directory _ => Ok true
  | Unlistable _ => Ok true
  | Unreachable e => Fail e
  end.

(** [readdirSync(path)]: the names, here with what each leads to. *)
Definition readdirSync (e : Entry) : result (list (string * Entry)) :=
  match e with
  | NotDirectory => Fail ENOTDIR
  | Directory listing => Ok listing
  | Unlistable e => Fail e
  | Unreachable e => Fail e
  end.

End Fs.

Section Discovery.

(** [resolve] and [extname] of the [path] module of Node. *)
Variable resolve : string -> string -> string.
Variable extname : string -> string.

(** The test on a path that is not a directory. *)
Definition isTsPath (fullPath : string) : bool :=
  String.eqb (extname fullPath) ".ts" || String.eqb (extname fullPath) ".tsx".

(** [getTsFiles(dir)], where [here] is what [dir] leads to.  The outer
    match is [readdirSync(dir)]; the inner function is the [for] loop over
    the listing, [files] the array it pushes to.  Nothing is caught: what
    [readdirSync], [statSync] or the call on a sub-directory throws ends
    the call. *)
Fixpoint getTsFiles (dir : string) (here : Fs.Entry) : Fs.result (list string) :=
  match here with
  | Fs.NotDirectory => Fs.Fail Fs.ENOTDIR
  | Fs.Unlistable e => Fs.Fail e
  | Fs.Unreachable e => Fs.Fail e
  | Fs.Directory listing =>
      (fix loop (listing : list (string * Fs.Entry)) (files : list string)
         : Fs.result (list string) :=
         match listing with
         | [] => Fs.Ok files
         | (file, entry) :: rest =>
             let fullPath := resolve dir file in
             match Fs.statSync_isDirectory entry with
             | Fs.Fail e => Fs.Fail e
             | Fs.Ok true =>
                 match getTsFiles fullPath entry with
                 | Fs.Ok found => loop rest (files ++ found)
                 | Fs.Fail e => Fs.Fail e
                 end
             | Fs.Ok false =>
                 if isTsPath fullPath then loop rest (files ++ [fullPath])
                 else loop rest files
             end
         end) listing []
  end.

(** The paths of all that is not a directory below a directory, a
    directory's own files and those of its sub-directories in listing
    order. *)
Fixpoint regularFilesUnder (dir : string) (here : Fs.Entry) : list string :=
  match here with
  | Fs.Directory listing =>
      flat_map (fun named : string * Fs.Entry =>
                  match snd named with
                  | Fs.NotDirectory => [resolve dir (fst named)]
                  | _ => regularFilesUnder (resolve dir (fst named)) (snd named)
                  end)
               listing
  | _ => []
  end.

End Discovery.

(** The first failure met when an entry of a listing is visited, its own
    entries in listing order. *)
Fixpoint firstFailure (entry : Fs.Entry) : option Fs.Error :=
  match entry with
  | Fs.NotDirectory => None
  | Fs.Unlistable e => Some e
  | Fs.Unreachable e => Some e
  | Fs.Directory listing =>
      (fix first (listing : list (string * Fs.Entry)) : option Fs.Error :=
         match listing with
         | [] => None
         | (_, entry) :: rest =>
             match firstFailure entry with
             | Some e => Some e
             | None => first rest
             end
         end) listing
  end.

(** Something at or below the entry cannot be read. *)
Inductive Broken : Fs.Entry -> Prop :=
| Broken_unlistable (e : Fs.Error) : Broken (Fs.Unlistable e)
| Broken_unreachable (e : Fs.Error) : Broken (Fs.Unreachable e)
| Broken_below (listing : list (string * Fs.Entry)) (name : string)
               (entry : Fs.Entry) :
    In (name, entry) listing -> Broken entry -> Broken (Fs.Directory listing).

(* ------------------------------------------------------------------ *)
(** The metric functions on what the provider hands them. *)

(** [calculateAvoidAny], from the two counts on. *)
Definition avoidAnyOf (anyCount typeRefCount : nat) : Q :=
  let denominator :=
    if (0 <? typeRefCount)%nat then typeRefCount
    else if (0 <? anyCount)%nat then anyCount else 1%nat in
  1 - num anyCount / num denominator.

(** [calculateReturnTypes], from the list [functions] on. *)
Definition returnTypesOf (functions : list Node) : Q :=
  if (length functions =? 0)%nat then 1
  else
    let withReturn :=
      length (filter (fun f => match getReturnTypeNode f with
                               | Some _ => true
                               | None => false
                               end) functions) in
    num withReturn / num (length functions).

(** [calculateAccessModifiers], from the list [classes] on, each class
    given by what its [getMembers()] returns. *)
Definition accessModifiersOf (classes : list (list Node)) : completion Q :=
  if (length classes =? 0)%nat then ret 1
  else
    '(members, withModifiers) <-
      forEach classes (fun clsMembers counters =>
        forEach clsMembers (fun member '(members, withModifiers) =>
          let members := S members in
          modified <- hasModifiers member ;;
          ret (members, if modified then S withModifiers else withModifiers))
        counters)
      (0%nat, 0%nat) ;;
    ret (if (members =? 0)%nat then 1 else num withModifiers / num members).

(** [calculateComplexity], from the list [functions] on. *)
Definition complexityOver (functions : list Node) : completion Q :=
  if (length functions =? 0)%nat then ret 1
  else
    totalComplexity <-
      forEach functions (fun f totalComplexity =>
        let complexity := 1%nat in
        let complexity := (complexity + countOfKind IfStatement f)%nat in
        let complexity := (complexity + countOfKind SwitchStatement f)%nat in
        let complexity := (complexity + countOfKind ForStatement f)%nat in
        let complexity := (complexity + countOfKind ForInStatement f)%nat in
        let complexity := (complexity + countOfKind ForOfStatement f)%nat in
        let complexity := (complexity + countOfKind WhileStatement f)%nat in
        let complexity := (complexity + countOfKind DoStatement f)%nat in
        let complexity := (complexity + countOfKind TryStatement f)%nat in
        let complexity := (complexity + countOfKind CatchClause f)%nat in
        let complexity := (complexity + countOfKind ConditionalExpression f)%nat in
        ands <- filterM (fun expr => hasOperator AmpersandAmpersandToken (node expr))
                        (getDescendantsOfKind BinaryExpression f) ;;
        let complexity := (complexity + length ands)%nat in
        ors <- filterM (fun expr => hasOperator BarBarToken (node expr))
                       (getDescendantsOfKind BinaryExpression f) ;;
        let complexity := (complexity + length ors)%nat in
        ret (totalComplexity + complexity)%nat)
      0%nat ;;
    let avgComplexity := num totalComplexity / num (length functions) in
    ret (Qmax 0 (1 - (avgComplexity - 1) / 5)).

(* ------------------------------------------------------------------ *)
(** Names that every object has. *)

(** The properties of [Object.prototype].  Read from an object that has no
    such property of its own, each of them is a function ([__proto__] an
    object), not [undefined]; multiplied by a number it gives [NaN]. *)
Definition inheritedNames : list string :=
  ["constructor"; "__defineGetter__"; "__defineSetter__"; "hasOwnProperty";
   "__lookupGetter__"; "__lookupSetter__"; "isPrototypeOf";
   "propertyIsEnumerable"; "toString"; "valueOf"; "__proto__";
   "toLocaleString"]%string.

Definition isInherited (name : string) : bool :=
  existsb (String.eqb name) inheritedNames.

(** No name of the mapping is an inherited one.  On such a mapping the
    read [weights[key]] of [calculateScore] is [get]: a weight or
    [undefined]. *)
Definition plainNames (m : object) : Prop :=
  forall name, In name (keys m) -> isInherited name = false.

(** A number as [calculateScore] can return it. *)
Inductive number : Type :=
| Num (q : Q)
| NaN.

(** What the read [o[key]] yields on an object literal: its own property,
    a property of [Object.prototype], or [undefined]. *)
Inductive property : Type :=
| Own (q : Q)
| Inherited
| Undefined.

Definition readProperty (o : object) (key : string) : property :=
  match get o key with
  | Some q => Own q
  | None => if isInherited key then Inherited else Undefined
  end.

(** [calculateScore] with the read [weights[key]] through the prototype:
    an inherited property is not [undefined], and its product with the
    value is [NaN], which every later sum and the final quotient keep. *)
Definition calculateScoreJs (weights metrics : object) : number :=
  let weightedSum :=
    fold_left (fun (sum : number) '(key, value) =>
                 match readProperty weights key with
                 | Undefined => sum
                 | Own weight =>
                     match sum with
                     | Num s => Num (s + weight * value)
                     | NaN => NaN
                     end
                 | Inherited => NaN
                 end)
              (entries metrics) (Num 0) in
  let totalWeight :=
    fold_left (fun sum k =>
                 match get weights k with
                 | Some weight => sum + weight
                 | None => sum   (* not reached: [k] is a key of [weights] *)
                 end)
              (keys weights) 0 in
  if ltb 0 totalWeight
  then match weightedSum with
       | Num s => Num ((s / totalWeight) * 100)
       | NaN => NaN
       end
  else Num 0.

(** [list.join(separator)] *)
Fixpoint join (separator : string) (l : list string) : string :=
  match l with
  | [] => ""
  | x :: rest =>
      match rest with
      | [] => x
      | _ :: _ => x ++ separator ++ join separator rest
      end
  end%string.

(** The line feed of the template literals. *)
Definition LF : string := String (Ascii.ascii_of_nat 10) EmptyString.

Section Report.

(** [x.toFixed(digits)] *)
Variable toFixed : Q -> nat -> string.

(** The text of one result: the body of the outer [map]. *)
Definition formatResult (s : ScoreResult) : string :=
  (LF ++ "FILE: " ++ file s ++ LF ++ LF
   ++ "SCORE: " ++ toFixed (score s) 2 ++ "/100" ++ LF ++ LF
   ++ join LF (map (fun kv : string * Q =>
                      fst kv ++ ": " ++ toFixed (snd kv * 100) 2 ++ "%")
                   (entries (metrics s)))
   ++ LF ++ LF
   ++ (if (0 <? length (suggestions s))%nat
       then "SUGGESTIONS:" ++ LF ++ join LF (suggestions s)
       else "No suggestions, great job!"))%string.

Definition formatHumanReadable (scores : list ScoreResult) : string :=
  join (LF ++ LF) (map formatResult scores).

End Report.

(* ================================================================== *)
(** ** The nesting depth, by structure *)

(** The longest chain of nesting constructs strictly below [n]. *)
Fixpoint nestingDepth (n : Node) : nat :=
  list_max
    (map (fun child =>
            if existsb (kind_eqb (getKind child)) nestingKinds
            then S (nestingDepth child)
            else nestingDepth child)
         (children n)).

(** The tests of the metric functions, as predicates. *)
Definition hasReturnType (f : Node) : Prop := getReturnTypeNode f <> None.

Definition inLetList (v : Descendant) : Prop :=
  getKind (getParent v) = VariableDeclarationList
  /\ N.land (getFlags (getParent v)) NodeFlags.Let <> 0%N.

Definition inConstList (v : Descendant) : Prop :=
  getKind (getParent v) = VariableDeclarationList
  /\ N.land (getFlags (getParent v)) NodeFlags.Const <> 0%N.

(** The metric set of the action, for ten given values. *)
Definition metricSetOf (a b c d e f g h i j : Q) : object :=
  [("avoidAny", a); ("returnTypes", b); ("accessModifiers", c);
   ("complexity", d); ("nesting", e); ("preferConst", f);
   ("avoidAssertions", g); ("useReadonly", h); ("avoidVar", i);
   ("optionalChaining", j)]%string.

(** More trees: [const a = 1, b = 2;] with the [Const] flag on its list. *)
Definition constList : Node :=
  mkNode VariableDeclarationList NodeFlags.Const
    [ Trees.plain VariableDeclaration [Trees.token Identifier];
      Trees.plain VariableDeclaration [Trees.token Identifier] ]
    None None None None.

Definition constFile : Node :=
  Trees.sourceFileOf [ Trees.declaration VariableStatement [constList] ].

(** [function outer() { function inner() { if (a) {} } }] *)
Definition innerFunction : Node :=
  mkNode FunctionDeclaration 0
    [ Trees.token Identifier;
      Trees.plain Block
        [ Trees.plain IfStatement [Trees.token Identifier; Trees.plain Block []] ] ]
    None (Some []) None None.

Definition outerFunction : Node :=
  mkNode FunctionDeclaration 0
    [ Trees.token Identifier; Trees.plain Block [innerFunction] ]
    None (Some []) None None.

(* ================================================================== *)
(** ** Numbers and comparisons *)

Lemma ltb_lt (x y : Q) : ltb x y = true <-> x < y.
Proof. unfold ltb, Qlt. apply Z.ltb_lt. Qed.

Lemma ltb_ge (x y : Q) : ltb x y = false <-> y <= x.
Proof. unfold ltb, Qle. apply Z.ltb_ge. Qed.

Lemma num_nonneg (n : nat) : 0 <= num n.
Proof. unfold num, Qle; simpl. lia. Qed.

Lemma num_pos (n : nat) : (0 < n)%nat -> 0 < num n.
Proof. unfold num, Qlt; simpl. lia. Qed.

Lemma num_le (a b : nat) : (a <= b)%nat -> num a <= num b.
Proof. unfold num, Qle; simpl. lia. Qed.

(** A part over its whole. *)
Lemma ratio_range (a b : nat) :
  (a <= b)%nat -> (0 < b)%nat -> 0 <= num a / num b /\ num a / num b <= 1.
Proof.
  intros Hab Hb. pose proof (num_pos Hb) as Hpos. split.
  - apply Qle_shift_div_l; [exact Hpos|]. rewrite Qmult_0_l. apply num_nonneg.
  - apply Qle_shift_div_r; [exact Hpos|]. rewrite Qmult_1_l. now apply num_le.
Qed.

Lemma filter_length_le {A} (p : A -> bool) (l : list A) :
  (length (filter p l) <= length l)%nat.
Proof. induction l as [|x l IH]; simpl; [|destruct (p x); simpl]; lia. Qed.

(* ================================================================== *)
(** ** The guarded queries never throw *)

Lemma hasModifiers_eq (member : Node) :
  hasModifiers member = Normal (memberCounts member).
Proof.
  unfold hasModifiers, memberCounts.
  destruct (getModifiers member) as [modifiers|]; reflexivity.
Qed.

Lemma hasOperator_eq (operator : SyntaxKind) (expr : Node) :
  hasOperator operator expr = Normal (operatorIs operator expr).
Proof.
  unfold hasOperator, operatorIs.
  destruct (getOperatorToken expr) as [token|]; reflexivity.
Qed.

Lemma structureIsReadonly_eq (p : Node) :
  structureIsReadonly p = Normal (propertyCounts p).
Proof.
  unfold structureIsReadonly, propertyCounts.
  destruct (getStructure p) as [[[|]]|]; reflexivity.
Qed.

Section Loops.
Context {A S : Type}.

(** A loop whose body always completes is a fold. *)
Lemma forEach_fold (body : A -> S -> completion S) (step : S -> A -> S) :
  (forall x s, body x s = Normal (step s x)) ->
  forall l s, forEach l body s = Normal (fold_left step l s).
Proof.
  intros Hbody l. induction l as [|x l IH]; intro s; simpl.
  - reflexivity.
  - rewrite Hbody. simpl. apply IH.
Qed.

Lemma filterM_filter (p : A -> completion bool) (q : A -> bool) :
  (forall x, p x = Normal (q x)) ->
  forall l, filterM p l = Normal (filter q l).
Proof.
  intros Hp l. induction l as [|x l IH]; simpl.
  - reflexivity.
  - rewrite Hp, IH. simpl. destruct (q x); reflexivity.
Qed.
End Loops.

(** Counting with a running counter. *)
Lemma fold_count {A} (q : A -> bool) (l : list A) (c : nat) :
  fold_left (fun c x => if q x then S c else c) l c
  = (c + length (filter q l))%nat.
Proof.
  revert c. induction l as [|x l IH]; intro c; simpl.
  - lia.
  - rewrite IH. destruct (q x); simpl; lia.
Qed.

(** The two counters of [calculateAccessModifiers] over one class. *)
Lemma fold_members (l : list Node) (members withModifiers : nat) :
  fold_left (fun (c : nat * nat) member =>
               let '(members, withModifiers) := c in
               (S members,
                if memberCounts member then S withModifiers else withModifiers))
            l (members, withModifiers)
  = ((members + length l)%nat,
     (withModifiers + length (filter memberCounts l))%nat).
Proof.
  revert members withModifiers.
  induction l as [|x l IH]; intros members withModifiers; simpl.
  - f_equal; lia.
  - rewrite IH. destruct (memberCounts x); simpl; f_equal; lia.
Qed.

Lemma members_loop (member : Node) (c : nat * nat) :
  (let '(members, withModifiers) := c in
   let members := S members in
   modified <- hasModifiers member ;;
   ret (members, if modified then S withModifiers else withModifiers))
  = Normal (let '(members, withModifiers) := c in
            (S members,
             if memberCounts member then S withModifiers else withModifiers)).
Proof. destruct c. rewrite hasModifiers_eq. reflexivity. Qed.

Lemma fold_classes (classes : list Node) (members withModifiers : nat) :
  fold_left (fun (c : nat * nat) cls =>
               ((fst c + length (getMembers cls))%nat,
                (snd c + length (filter memberCounts (getMembers cls)))%nat))
            classes (members, withModifiers)
  = ((members + length (flat_map getMembers classes))%nat,
     (withModifiers
      + length (filter memberCounts (flat_map getMembers classes)))%nat).
Proof.
  revert members withModifiers.
  induction classes as [|cls classes IH]; intros members withModifiers; simpl.
  - f_equal; lia.
  - rewrite IH. rewrite filter_app, !length_app. f_equal; lia.
Qed.

Lemma calculateAccessModifiers_eq (sourceFile : Node) :
  calculateAccessModifiers sourceFile = Normal (accessModifiersValue sourceFile).
Proof.
  unfold calculateAccessModifiers, accessModifiersValue, allMembers.
  destruct (length (getClasses sourceFile) =? 0)%nat; [reflexivity|].
  rewrite (@forEach_fold _ _ _
             (fun (c : nat * nat) cls =>
                ((fst c + length (getMembers cls))%nat,
                 (snd c + length (filter memberCounts (getMembers cls)))%nat))).
  - rewrite fold_classes. reflexivity.
  - intros cls [members withModifiers].
    rewrite (@forEach_fold _ _ _
               (fun (c : nat * nat) member =>
                  let '(members, withModifiers) := c in
                  (S members,
                   if memberCounts member then S withModifiers
                   else withModifiers))).
    + rewrite fold_members. reflexivity.
    + intros member c. apply members_loop.
Qed.

Lemma calculateComplexity_eq (sourceFile : Node) :
  calculateComplexity sourceFile = Normal (complexityValue sourceFile).
Proof.
  unfold calculateComplexity, complexityValue, totalComplexityOf.
  destruct (length (getFunctions sourceFile) =? 0)%nat; [reflexivity|].
  rewrite (@forEach_fold _ _ _
             (fun total f => (total + complexityOf f)%nat)).
  - reflexivity.
  - intros f total.
    rewrite (@filterM_filter _ _
               (fun e => operatorIs AmpersandAmpersandToken (node e)))
      by (intro; apply hasOperator_eq).
    simpl.
    rewrite (@filterM_filter _ _ (fun e => operatorIs BarBarToken (node e)))
      by (intro; apply hasOperator_eq).
    reflexivity.
Qed.

Lemma calculateUseReadonly_eq (sourceFile : Node) :
  calculateUseReadonly sourceFile = Normal (useReadonlyValue sourceFile).
Proof.
  unfold calculateUseReadonly, useReadonlyValue.
  destruct (length _ =? 0)%nat; [reflexivity|].
  rewrite (@filterM_filter _ _ (fun p => propertyCounts (node p)))
    by (intro; apply structureIsReadonly_eq).
  reflexivity.
Qed.

Lemma calculateOptionalChaining_eq (sourceFile : Node) :
  calculateOptionalChaining sourceFile
  = Normal (optionalChainingValue sourceFile).
Proof.
  unfold calculateOptionalChaining, optionalChainingValue, operatorCount.
  rewrite (@forEach_fold _ _ _
             (fun c e => if operatorIs AmpersandAmpersandToken (node e)
                         then S c else c)).
  - rewrite fold_count. reflexivity.
  - intros e c. rewrite hasOperator_eq. reflexivity.
Qed.

(* ================================================================== *)
(** ** The engine on whole files *)

Lemma collectMetrics_eq (sourceFile : Node) :
  collectMetrics sourceFile
  = Normal [("avoidAny", calculateAvoidAny sourceFile);
            ("returnTypes", calculateReturnTypes sourceFile);
            ("accessModifiers", accessModifiersValue sourceFile);
            ("complexity", complexityValue sourceFile);
            ("nesting", calculateNesting sourceFile);
            ("preferConst", calculatePreferConst sourceFile);
            ("avoidAssertions", calculateAvoidAssertions sourceFile);
            ("useReadonly", useReadonlyValue sourceFile);
            ("avoidVar", calculateAvoidVar sourceFile);
            ("optionalChaining", optionalChainingValue sourceFile)]%string.
Proof.
  unfold collectMetrics.
  rewrite calculateAccessModifiers_eq, calculateComplexity_eq,
    calculateUseReadonly_eq, calculateOptionalChaining_eq.
  reflexivity.
Qed.

(** C5. For the file [function f(a: any): any { if (a) { return a; } }]:
    avoidAny is strictly below 1; returnTypes is 1; the function's
    complexity is 2 (base 1 plus one [if]), so the complexity metric is
    max(0, 1 - (2 - 1) / 5) = 0.8; the deepest nesting is 1, so the nesting
    metric is 1 - 1/4 = 0.75. *)
Theorem single_function_file_metrics :
  calculateAvoidAny anyFunctionFile < 1
  /\ calculateReturnTypes anyFunctionFile == 1
  /\ complexityOf anyFunction = 2%nat
  /\ returns (calculateComplexity anyFunctionFile)
             (fun r => r == Qmax 0 (1 - (2 - 1) / 5) /\ r == 0.8)
  /\ getNesting anyFunction 0 = 1%nat
  /\ calculateNesting anyFunctionFile == 1 - 1 / 4
  /\ calculateNesting anyFunctionFile == 0.75.
Proof.
  repeat split; vm_compute; reflexivity.
Qed.

(** C2, on the code.  For the empty file nine metrics are 1, but
    [calculateOptionalChaining] returns 0 / 1 = 0; the score is 90 and the
    suggestion list holds the optional-chaining hint. *)
Theorem empty_file_optional_chaining_zero :
  returns (scoreFile "empty.ts" emptyFile)
    (fun r =>
       (forall name, In name metricNames -> name <> "optionalChaining"%string ->
                     get (metrics r) name = Some 1)
       /\ get (metrics r) "optionalChaining" = Some 0
       /\ score r == 90
       /\ suggestions r = [suggestionFor "optionalChaining"]).
Proof.
  vm_compute. repeat split.
  intros name Hin Hneq.
  repeat (destruct Hin as [<-|Hin]; [first [reflexivity | now elim Hneq]|]).
  destruct Hin.
Qed.

(** The same default for every file without null-safe operators: whether
    or not it has manual checks, the metric is 0. *)
Lemma optionalChaining_without_operators (sourceFile : Node) :
  countOfKind QuestionDotToken sourceFile = 0%nat ->
  countOfKind QuestionQuestionToken sourceFile = 0%nat ->
  returns (calculateOptionalChaining sourceFile) (fun r => r == 0).
Proof.
  intros Hdot Hqq. rewrite calculateOptionalChaining_eq. simpl.
  unfold optionalChainingValue. rewrite Hdot, Hqq. simpl.
  unfold Qdiv. apply Qmult_0_l.
Qed.

(** C1, on the code.  With one type reference and ten [any], avoidAny is
    1 - 10/1 = -9 and the score of the file is -10; with two non-null
    assertions and no counted expression, avoidAssertions is 1 - 2/1 = -1.
    None of the three lies in its interval. *)
Theorem metrics_and_score_below_zero :
  calculateAvoidAny manyAnyFile == -9
  /\ ~ isRatio (calculateAvoidAny manyAnyFile)
  /\ calculateAvoidAssertions nonNullFile == -1
  /\ ~ isRatio (calculateAvoidAssertions nonNullFile)
  /\ returns (scoreFile "many.ts" manyAnyFile)
             (fun r => score r == -10 /\ ~ (0 <= score r /\ score r <= 100)).
Proof.
  repeat split; try (vm_compute; reflexivity);
    intros [Hlow _]; vm_compute in Hlow; apply Hlow; reflexivity.
Qed.

(** *** The bounds that do hold *)

Lemma one_minus_le_one (a d : nat) :
  (0 < d)%nat -> 1 - num a / num d <= 1.
Proof.
  intro Hd.
  assert (Hratio : 0 <= num a / num d).
  { apply Qle_shift_div_l; [now apply num_pos|].
    rewrite Qmult_0_l. apply num_nonneg. }
  revert Hratio. generalize (num a / num d). intros ratio Hratio. lra.
Qed.

Lemma or_one_pos (n : nat) : (0 < or_one n)%nat.
Proof. unfold or_one. destruct n; simpl; lia. Qed.

Lemma calculateAvoidAny_le_one (sourceFile : Node) :
  calculateAvoidAny sourceFile <= 1.
Proof.
  unfold calculateAvoidAny. apply one_minus_le_one.
  destruct (0 <? length (getDescendantsOfKind TypeReference sourceFile))%nat
    eqn:Hrefs; [now apply Nat.ltb_lt|].
  destruct (0 <? length (getDescendantsOfKind AnyKeyword sourceFile))%nat
    eqn:Hanys; [now apply Nat.ltb_lt | lia].
Qed.

Lemma calculateAvoidAssertions_le_one (sourceFile : Node) :
  calculateAvoidAssertions sourceFile <= 1.
Proof.
  unfold calculateAvoidAssertions. apply one_minus_le_one, or_one_pos.
Qed.

Lemma calculateReturnTypes_ratio (sourceFile : Node) :
  isRatio (calculateReturnTypes sourceFile).
Proof.
  unfold calculateReturnTypes, isRatio.
  destruct (length (getFunctions sourceFile) =? 0)%nat eqn:Hnone; [lra|].
  apply Nat.eqb_neq in Hnone.
  apply ratio_range; [apply filter_length_le | lia].
Qed.

Lemma accessModifiersValue_ratio (sourceFile : Node) :
  isRatio (accessModifiersValue sourceFile).
Proof.
  unfold accessModifiersValue, isRatio.
  destruct (length (getClasses sourceFile) =? 0)%nat; [lra|].
  destruct (length (allMembers sourceFile) =? 0)%nat eqn:Hnone; [lra|].
  apply Nat.eqb_neq in Hnone.
  apply ratio_range; [apply filter_length_le | lia].
Qed.

Lemma totalComplexity_ge (functions : list Node) (total : nat) :
  (total + length functions
   <= fold_left (fun total f => (total + complexityOf f)%nat) functions total)%nat.
Proof.
  revert total. induction functions as [|f functions IH]; intro total; simpl.
  - lia.
  - specialize (IH (total + complexityOf f)%nat).
    assert (1 <= complexityOf f)%nat by (unfold complexityOf; lia). lia.
Qed.

Lemma complexityValue_ratio (sourceFile : Node) :
  isRatio (complexityValue sourceFile).
Proof.
  unfold complexityValue, isRatio.
  destruct (length (getFunctions sourceFile) =? 0)%nat eqn:Hnone; [lra|].
  apply Nat.eqb_neq in Hnone. split; [apply Q.le_max_l|].
  apply Q.max_lub; [lra|].
  assert (Havg : 1 <= num (totalComplexityOf (getFunctions sourceFile))
                      / num (length (getFunctions sourceFile))).
  { apply Qle_shift_div_l; [apply num_pos; lia|].
    rewrite Qmult_1_l. apply num_le.
    apply (totalComplexity_ge (getFunctions sourceFile) 0). }
  revert Havg. generalize (num (totalComplexityOf (getFunctions sourceFile))
                           / num (length (getFunctions sourceFile))).
  intros avg Havg. unfold Qdiv. change (/ 5) with (1 # 5). lra.
Qed.

Lemma calculateNesting_ratio (sourceFile : Node) :
  isRatio (calculateNesting sourceFile).
Proof.
  unfold calculateNesting, isRatio.
  destruct (length (getFunctions sourceFile) =? 0)%nat; [lra|].
  split; [apply Q.le_max_l|]. apply Q.max_lub; [lra|].
  match goal with
  | |- 1 - num ?d / 4 <= 1 =>
      pose proof (num_nonneg d) as Hdepth; revert Hdepth; generalize (num d)
  end.
  intros depth Hdepth. unfold Qdiv. change (/ 4) with (1 # 4). lra.
Qed.

Lemma calculatePreferConst_ratio (sourceFile : Node) :
  isRatio (calculatePreferConst sourceFile).
Proof.
  unfold calculatePreferConst, isRatio.
  match goal with
  | |- context [(?lets + ?consts =? 0)%nat] =>
      destruct (lets + consts =? 0)%nat eqn:Hnone; [lra|];
      apply Nat.eqb_neq in Hnone; apply ratio_range; lia
  end.
Qed.

Lemma useReadonlyValue_ratio (sourceFile : Node) :
  isRatio (useReadonlyValue sourceFile).
Proof.
  unfold useReadonlyValue, isRatio.
  destruct (length _ =? 0)%nat eqn:Hnone; [lra|].
  apply Nat.eqb_neq in Hnone.
  apply ratio_range; [apply filter_length_le | lia].
Qed.

Lemma calculateAvoidVar_ratio (sourceFile : Node) :
  isRatio (calculateAvoidVar sourceFile).
Proof.
  unfold calculateAvoidVar, isRatio. destruct (existsb _ _); lra.
Qed.

Lemma optionalChainingValue_ratio (sourceFile : Node) :
  isRatio (optionalChainingValue sourceFile).
Proof.
  unfold optionalChainingValue, isRatio.
  apply ratio_range; [|apply or_one_pos].
  unfold or_one. destruct (_ =? 0)%nat eqn:Hzero; [|lia].
  apply Nat.eqb_eq in Hzero. lia.
Qed.

(** Eight metrics are ratios, the other two are at most 1, and so is the
    hundredth of the score. *)
Lemma engine_bounds (sourceFile : Node) :
  returns (scoreFile "file.ts" sourceFile)
    (fun r =>
       (forall name v, In name metricNames -> get (metrics r) name = Some v ->
                       v <= 1)
       /\ (forall name v, In name metricNames -> get (metrics r) name = Some v ->
                          name <> "avoidAny"%string ->
                          name <> "avoidAssertions"%string ->
                          0 <= v)
       /\ score r <= 100).
Proof.
  unfold scoreFile. rewrite collectMetrics_eq. simpl.
  pose proof (calculateAvoidAny_le_one sourceFile).
  pose proof (calculateAvoidAssertions_le_one sourceFile).
  destruct (calculateReturnTypes_ratio sourceFile).
  destruct (accessModifiersValue_ratio sourceFile).
  destruct (complexityValue_ratio sourceFile).
  destruct (calculateNesting_ratio sourceFile).
  destruct (calculatePreferConst_ratio sourceFile).
  destruct (useReadonlyValue_ratio sourceFile).
  destruct (calculateAvoidVar_ratio sourceFile).
  destruct (optionalChainingValue_ratio sourceFile).
  split; [|split].
  - intros name v Hname Hget.
    repeat (destruct Hname as [<-|Hname];
            [simpl in Hget; injection Hget as <-; assumption|]).
    destruct Hname.
  - intros name v Hname Hget Hany Hassert.
    repeat (destruct Hname as [<-|Hname];
            [simpl in Hget; injection Hget as <-;
             first [assumption | now elim Hany | now elim Hassert]|]).
    destruct Hname.
  - unfold calculateScore, calculateScoreWith, weights. simpl.
    unfold Qdiv. change (/ (0 + 10 + 10 + 10 + 10 + 10 + 10 + 10 + 10 + 10 + 10))
      with (1 # 100). lra.
Qed.

(* ================================================================== *)
(** ** Files without functions *)

Lemma kind_eqb_eq (a b : SyntaxKind) : kind_eqb a b = true <-> a = b.
Proof.
  unfold kind_eqb. destruct (SyntaxKind_eq_dec a b); split; congruence.
Qed.

Lemma children_are_descendants (n c : Node) :
  In c (children n) -> In {| getParent := n; node := c |} (getDescendants n).
Proof.
  intro Hin. destruct n; simpl in *.
  apply in_flat_map. exists c. split; [exact Hin | now left].
Qed.

(** A file with no function declaration anywhere has none among its
    statements. *)
Lemma no_function_descendant (sourceFile : Node) :
  getDescendantsOfKind FunctionDeclaration sourceFile = [] ->
  getFunctions sourceFile = [].
Proof.
  unfold getDescendantsOfKind, getFunctions, childrenOfKind. intro Hnone.
  destruct (filter _ (children sourceFile)) as [|f rest] eqn:Hf; [reflexivity|].
  assert (Hin : In f (filter (fun c => kind_eqb (getKind c) FunctionDeclaration)
                             (children sourceFile)))
    by (rewrite Hf; now left).
  apply filter_In in Hin. destruct Hin as [Hchild Hkind].
  apply children_are_descendants in Hchild.
  assert (Hd : In {| getParent := sourceFile; node := f |}
                  (filter (fun d => kind_eqb (getKind (node d)) FunctionDeclaration)
                          (getDescendants sourceFile)))
    by (apply filter_In; split; assumption).
  rewrite Hnone in Hd. destruct Hd.
Qed.

(** C6. A file with zero function declarations has returnTypes, complexity
    and nesting equal to 1. *)
Theorem no_functions_defaults (sourceFile : Node) :
  length (getFunctions sourceFile) = 0%nat ->
  calculateReturnTypes sourceFile = 1
  /\ calculateComplexity sourceFile = Normal 1
  /\ calculateNesting sourceFile = 1.
Proof.
  intro Hnone.
  unfold calculateReturnTypes, calculateComplexity, calculateNesting.
  rewrite Hnone. repeat split.
Qed.

Lemma no_functions_defaults_witness :
  length (getFunctions varFile) = 0%nat
  /\ calculateReturnTypes varFile = 1
  /\ calculateComplexity varFile = Normal 1
  /\ calculateNesting varFile = 1.
Proof.
  split; [reflexivity | apply (no_functions_defaults varFile); reflexivity].
Defined.

(* ================================================================== *)
(** ** Variable declarations *)

Lemma land_let_const (flags : N) :
  N.land flags (N.lor NodeFlags.Let NodeFlags.Const) = 0%N
  <-> N.land flags NodeFlags.Let = 0%N /\ N.land flags NodeFlags.Const = 0%N.
Proof. rewrite N.land_lor_distr_r. apply N.lor_eq_0_iff. Qed.

Lemma isLegacyDeclaration_iff (v : Descendant) :
  isLegacyDeclaration v = true <-> isVarDeclaration v.
Proof.
  unfold isLegacyDeclaration, isVarDeclaration.
  rewrite andb_true_iff, kind_eqb_eq, N.eqb_eq, land_let_const. tauto.
Qed.

Lemma parentIsListWith_var (mask : N) (v : Descendant) :
  N.land (getFlags (getParent v)) mask = 0%N ->
  parentIsListWith mask v = false.
Proof.
  intro Hflags. unfold parentIsListWith. rewrite Hflags. simpl.
  apply andb_false_r.
Qed.

Lemma filter_none {A} (p : A -> bool) (l : list A) :
  (forall x, In x l -> p x = false) -> filter p l = [].
Proof.
  induction l as [|x l IH]; intro Hall; simpl; [reflexivity|].
  rewrite (Hall x) by now left. apply IH. intros y Hy. apply Hall. now right.
Qed.

(** preferConst looks at [let] and [const] lists only. *)
Lemma preferConst_without_let_const (sourceFile : Node) :
  (forall v, In v (getDescendantsOfKind VariableDeclaration sourceFile) ->
             N.land (getFlags (getParent v)) NodeFlags.Let = 0%N
             /\ N.land (getFlags (getParent v)) NodeFlags.Const = 0%N) ->
  calculatePreferConst sourceFile = 1.
Proof.
  intro Hall. unfold calculatePreferConst.
  rewrite !filter_none; [reflexivity | |];
    intros v Hv; apply parentIsListWith_var; now apply Hall.
Qed.

Lemma avoidVar_zero (sourceFile : Node) :
  (exists v, In v (getDescendantsOfKind VariableDeclaration sourceFile)
             /\ isVarDeclaration v) ->
  calculateAvoidVar sourceFile = 0.
Proof.
  intros [v [Hin Hv]]. unfold calculateAvoidVar.
  replace (existsb isLegacyDeclaration
             (getDescendantsOfKind VariableDeclaration sourceFile)) with true;
    [reflexivity|].
  symmetry. apply existsb_exists. exists v.
  split; [exact Hin | now apply isLegacyDeclaration_iff].
Qed.

Lemma avoidVar_one (sourceFile : Node) :
  ~ (exists v, In v (getDescendantsOfKind VariableDeclaration sourceFile)
               /\ isVarDeclaration v) ->
  calculateAvoidVar sourceFile = 1.
Proof.
  intro Hnone. unfold calculateAvoidVar.
  destruct (existsb isLegacyDeclaration
              (getDescendantsOfKind VariableDeclaration sourceFile)) eqn:Hsome;
    [|reflexivity].
  exfalso. apply Hnone.
  apply existsb_exists in Hsome. destruct Hsome as [v [Hin Hv]].
  exists v. split; [exact Hin | now apply isLegacyDeclaration_iff].
Qed.

(** C7. If some variable declaration belongs to a declaration list flagged
    neither [const] nor [let], avoidVar is 0, whatever else the file
    declares; otherwise it is 1. *)
Theorem avoidVar_binary (sourceFile : Node) :
  ((exists v, In v (getDescendantsOfKind VariableDeclaration sourceFile)
              /\ isVarDeclaration v) ->
   calculateAvoidVar sourceFile = 0)
  /\ (~ (exists v, In v (getDescendantsOfKind VariableDeclaration sourceFile)
                   /\ isVarDeclaration v) ->
      calculateAvoidVar sourceFile = 1).
Proof.
  split; [apply avoidVar_zero | apply avoidVar_one].
Qed.

Lemma avoidVar_binary_witness :
  calculateAvoidVar varFile = 0 /\ calculateAvoidVar emptyFile = 1.
Proof.
  split.
  - apply (proj1 (avoidVar_binary varFile)).
    exists varFile_declaration. split.
    + vm_compute. now left.
    + repeat split.
  - apply (proj2 (avoidVar_binary emptyFile)).
    intros [v [Hin _]]. vm_compute in Hin. exact Hin.
Defined.

(** C10. In a file whose variable declarations are all [var] declarations
    (and there is one), preferConst is 1 and avoidVar is 0. *)
Theorem only_var_declarations (sourceFile : Node) :
  getDescendantsOfKind VariableDeclaration sourceFile <> [] ->
  Forall isVarDeclaration (getDescendantsOfKind VariableDeclaration sourceFile) ->
  calculatePreferConst sourceFile = 1 /\ calculateAvoidVar sourceFile = 0.
Proof.
  intros Hsome Hall. rewrite Forall_forall in Hall. split.
  - apply preferConst_without_let_const. intros v Hv.
    destruct (Hall v Hv) as [_ Hflags]. exact Hflags.
  - apply avoidVar_zero.
    destruct (getDescendantsOfKind VariableDeclaration sourceFile)
      as [|v rest] eqn:Hdecls; [now elim Hsome|].
    exists v. split; [now left | apply Hall; now left].
Qed.

Lemma only_var_declarations_witness :
  calculatePreferConst varFile = 1 /\ calculateAvoidVar varFile = 0.
Proof.
  apply (only_var_declarations varFile).
  - vm_compute. discriminate.
  - vm_compute. constructor; [repeat split | constructor].
Defined.

(* ================================================================== *)
(** ** Nodes without a kind-specific accessor *)

(** C9. A node without [getModifiers], [getOperatorToken] or
    [getStructure] makes the guarded query answer false, without an
    exception; and on every tree, whichever nodes lack the accessors, the
    metric functions that use these queries, and so the whole collection of
    the ten metrics and the scoring of the file, complete normally. *)
Theorem missing_accessors_tolerated :
  (forall member : Node,
      getModifiers member = None -> hasModifiers member = Normal false)
  /\ (forall (operator : SyntaxKind) (expr : Node),
         getOperatorToken expr = None ->
         hasOperator operator expr = Normal false)
  /\ (forall p : Node,
         getStructure p = None -> structureIsReadonly p = Normal false)
  /\ (forall sourceFile : Node,
         (exists r, calculateAccessModifiers sourceFile = Normal r)
         /\ (exists r, calculateComplexity sourceFile = Normal r)
         /\ (exists r, calculateUseReadonly sourceFile = Normal r)
         /\ (exists r, calculateOptionalChaining sourceFile = Normal r)
         /\ (exists m, collectMetrics sourceFile = Normal m)
         /\ (forall file, exists r, scoreFile file sourceFile = Normal r)).
Proof.
  split; [|split; [|split]].
  - intros member Hnone. rewrite hasModifiers_eq. unfold memberCounts.
    now rewrite Hnone.
  - intros operator expr Hnone. rewrite hasOperator_eq. unfold operatorIs.
    now rewrite Hnone.
  - intros p Hnone. rewrite structureIsReadonly_eq. unfold propertyCounts.
    now rewrite Hnone.
  - intro sourceFile. repeat split.
    + eexists. apply calculateAccessModifiers_eq.
    + eexists. apply calculateComplexity_eq.
    + eexists. apply calculateUseReadonly_eq.
    + eexists. apply calculateOptionalChaining_eq.
    + eexists. apply collectMetrics_eq.
    + intro file. unfold scoreFile. rewrite collectMetrics_eq.
      eexists. reflexivity.
Qed.

Lemma missing_accessors_tolerated_witness :
  hasModifiers staticBlock = Normal false
  /\ hasOperator AmpersandAmpersandToken (token Identifier) = Normal false
  /\ structureIsReadonly (token Identifier) = Normal false
  /\ exists r, calculateAccessModifiers staticBlockFile = Normal r.
Proof.
  destruct missing_accessors_tolerated as [Hmod [Hop [Hstruct Htotal]]].
  split; [|split; [|split]].
  - apply Hmod. reflexivity.
  - apply Hop. reflexivity.
  - apply Hstruct. reflexivity.
  - apply (Htotal staticBlockFile).
Defined.

(** A member without the accessor adds to the members and not to those
    with modifiers: the class with only a static block scores 0. *)
Lemma static_block_counts_as_unmodified :
  calculateAccessModifiers staticBlockFile = Normal 0.
Proof. reflexivity. Qed.

(* ================================================================== *)
(** ** Suggestions *)

Lemma lt_one_belowOne (m : object) (name : string) :
  lt_one (get m name) = belowOne m name.
Proof.
  unfold lt_one, belowOne. destruct (get m name) as [v|]; [|reflexivity].
  destruct (Qlt_le_dec v 1) as [Hlt|Hge].
  - now apply ltb_lt.
  - now apply ltb_ge.
Qed.

Lemma belowOne_lt (m : object) (name : string) (v : Q) :
  get m name = Some v -> (belowOne m name = true <-> v < 1).
Proof.
  intro Hget. unfold belowOne. rewrite Hget.
  destruct (Qlt_le_dec v 1) as [Hlt|Hge]; split; try congruence; try tauto.
  intro Hlt. exfalso. exact (Qlt_not_le _ _ Hlt Hge).
Qed.

(** Pushing under a test is appending a list of at most one element. *)
Lemma push_if {A} (b : bool) (l : list A) (x : A) :
  (if b then l ++ [x] else l) = l ++ (if b then [x] else []).
Proof. destruct b; [reflexivity | now rewrite app_nil_r]. Qed.

Lemma generateSuggestions_filter (m : object) :
  generateSuggestions m = map suggestionFor (filter (belowOne m) metricNames).
Proof.
  unfold generateSuggestions. rewrite !lt_one_belowOne, !push_if.
  unfold metricNames. cbn [filter].
  repeat match goal with
         | |- context [belowOne m ?name] =>
             let b := fresh "below" in
             generalize (belowOne m name); intro b
         end.
  repeat match goal with b : bool |- _ => destruct b end; reflexivity.
Qed.

Lemma suggestionFor_injective (a b : string) :
  In a metricNames -> In b metricNames ->
  suggestionFor a = suggestionFor b -> a = b.
Proof.
  intros Ha Hb.
  repeat (destruct Ha as [<-|Ha]; [|]);
    try (destruct Ha);
    repeat (destruct Hb as [<-|Hb]; [|]);
    try (destruct Hb);
    intro Heq; first [reflexivity | vm_compute in Heq; discriminate Heq].
Qed.

Lemma filter_nil_iff {A} (p : A -> bool) (l : list A) :
  filter p l = [] <-> forall x, In x l -> p x = false.
Proof.
  split.
  - induction l as [|x l IH]; intros Hnil y Hy; [destruct Hy|].
    simpl in Hnil. destruct (p x) eqn:Hpx; [discriminate|].
    destruct Hy as [<-|Hy]; [exact Hpx | now apply IH].
  - apply filter_none.
Qed.

(** C4. For a metric set with all ten metrics, the suggestions are the
    fixed texts of the metrics strictly below 1, one for each, in the
    canonical order of the metrics; a metric at 1 adds nothing; the length
    of the list is the number of metrics strictly below 1; and, no metric
    exceeding 1, the list is empty exactly when every metric is 1. *)
Theorem suggestions_follow_metrics (m : object) :
  hasAllMetrics m ->
  generateSuggestions m = map suggestionFor (filter (belowOne m) metricNames)
  /\ length (generateSuggestions m) = length (filter (belowOne m) metricNames)
  /\ (forall name v, In name metricNames -> get m name = Some v ->
        (In (suggestionFor name) (generateSuggestions m) <-> v < 1))
  /\ (atMostOne m ->
      (generateSuggestions m = [] <->
       forall name, In name metricNames -> isOne m name)).
Proof.
  intro Hall. rewrite generateSuggestions_filter.
  split; [reflexivity|]. split; [apply length_map|]. split.
  - intros name v Hname Hget. rewrite <- (@belowOne_lt m name v Hget). split.
    + intro Hin. apply in_map_iff in Hin. destruct Hin as [k [Heq Hk]].
      apply filter_In in Hk. destruct Hk as [Hk Hbelow].
      now rewrite <- (@suggestionFor_injective k name Hk Hname Heq).
    + intro Hbelow. apply in_map. apply filter_In. now split.
  - intro Hmost. split.
    + intros Hnil name Hname.
      assert (Hfilter : filter (belowOne m) metricNames = []).
      { destruct (filter (belowOne m) metricNames); [reflexivity|discriminate]. }
      destruct (Hall name Hname) as [v Hget]. exists v. split; [exact Hget|].
      apply Qle_antisym; [now apply (Hmost name)|].
      pose proof (proj1 (filter_nil_iff _ _) Hfilter name Hname) as Hnot.
      unfold belowOne in Hnot. rewrite Hget in Hnot.
      destruct (Qlt_le_dec v 1); [discriminate | assumption].
    + intro Hones.
      replace (filter (belowOne m) metricNames) with (@nil string);
        [reflexivity|].
      symmetry. apply filter_nil_iff. intros name Hname.
      destruct (Hones name Hname) as [v [Hget Hv]].
      unfold belowOne. rewrite Hget.
      destruct (Qlt_le_dec v 1) as [Hlt|]; [|reflexivity].
      rewrite Hv in Hlt. now apply Qlt_irrefl in Hlt.
Qed.

Lemma suggestions_follow_metrics_witness :
  hasAllMetrics nestedMetrics
  /\ generateSuggestions nestedMetrics
     = map suggestionFor (filter (belowOne nestedMetrics) metricNames)
  /\ length (generateSuggestions nestedMetrics) = 1%nat
  /\ (In (suggestionFor "nesting") (generateSuggestions nestedMetrics)
      <-> 0.75 < 1)
  /\ (generateSuggestions nestedMetrics = [] <->
      forall name, In name metricNames -> isOne nestedMetrics name).
Proof.
  assert (Hall : hasAllMetrics nestedMetrics).
  { intros name Hname.
    repeat (destruct Hname as [<-|Hname]; [eexists; reflexivity|]).
    destruct Hname. }
  assert (Hmost : atMostOne nestedMetrics).
  { intros name v Hname Hget.
    repeat (destruct Hname as [<-|Hname];
            [vm_compute in Hget; injection Hget as <-; vm_compute;
             discriminate|]).
    destruct Hname. }
  destruct (suggestions_follow_metrics Hall)
    as [Hlist [Hlength [Heach Hempty]]].
  split; [exact Hall|]. split; [exact Hlist|].
  split; [rewrite Hlength; reflexivity|].
  split; [apply Heach; [vm_compute; tauto | reflexivity]|].
  exact (Hempty Hmost).
Defined.

(* ================================================================== *)
(** ** The score *)

Lemma get_hasKey (o : object) (name : string) :
  hasKey o name = false <-> get o name = None.
Proof.
  unfold hasKey, keys. induction o as [|[k v] o IH]; simpl; [tauto|].
  rewrite (String.eqb_sym name k).
  destruct (String.eqb k name); simpl; [split; discriminate | exact IH].
Qed.

Lemma sumOver_ext (names : list string) (f g : string -> Q) :
  (forall name, In name names -> f name == g name) ->
  sumOver names f == sumOver names g.
Proof.
  induction names as [|name names IH]; intro Hfg; simpl; [reflexivity|].
  rewrite (Hfg name) by now left.
  rewrite IH; [reflexivity|]. intros n Hn. apply Hfg. now right.
Qed.

(** The numerator of the source: the entries whose name has a weight. *)
Lemma weightedSum_eq (w m : object) (acc : Q) :
  wf m ->
  fold_left (fun sum '(key, value) =>
               match get w key with
               | Some weight => sum + weight * value
               | None => sum
               end)
            (entries m) acc
  == acc + commonWeightedSum w m.
Proof.
  unfold entries, commonWeightedSum, commonNames, wf, keys.
  revert acc. induction m as [|[k v] m IH]; intros acc Hwf; simpl.
  - ring.
  - inversion Hwf as [|? ? Hfresh Hrest]; subst.
    rewrite IH by exact Hrest.
    assert (Htail :
      sumOver (filter (hasKey w) (map fst m))
              (fun name => valueOf w name * valueOf ((k, v) :: m) name)
      == sumOver (filter (hasKey w) (map fst m))
                 (fun name => valueOf w name * valueOf m name)).
    { apply sumOver_ext. intros name Hname.
      apply filter_In in Hname. destruct Hname as [Hname _].
      unfold valueOf at 2 4. simpl.
      destruct (String.eqb_spec k name) as [->|_]; [contradiction|reflexivity]. }
    destruct (hasKey w k) eqn:Hkey; simpl.
    + rewrite Htail.
      assert (Hhead : valueOf ((k, v) :: m) k = v)
        by (unfold valueOf; simpl; now rewrite String.eqb_refl).
      rewrite Hhead.
      destruct (get w k) as [weight|] eqn:Hget.
      * assert (Hweight : valueOf w k = weight)
          by (unfold valueOf; now rewrite Hget).
        rewrite Hweight. ring.
      * apply get_hasKey in Hget. congruence.
    + rewrite Htail. apply get_hasKey in Hkey. rewrite Hkey. reflexivity.
Qed.

(** The denominator of the source: every weight of the table. *)
Lemma totalWeight_eq (w : object) (names : list string) (acc : Q) :
  fold_left (fun sum k =>
               match get w k with
               | Some weight => sum + weight
               | None => sum
               end)
            names acc
  == acc + sumOver names (valueOf w).
Proof.
  revert acc. induction names as [|k names IH]; intro acc; simpl.
  - ring.
  - rewrite IH. unfold valueOf at 2. destruct (get w k); ring.
Qed.

Lemma calculateScoreWith_tableScore (w m : object) :
  wf m -> calculateScoreWith w m == tableScore w m.
Proof.
  intro Hwf. unfold calculateScoreWith, tableScore.
  pose proof (weightedSum_eq w 0 Hwf) as Hsum.
  pose proof (totalWeight_eq w (keys w) 0) as Htotal.
  rewrite Qplus_0_l in Hsum, Htotal.
  destruct (Qlt_le_dec 0 (sumOver (keys w) (valueOf w))) as [Hpos|Hnot].
  - rewrite <- Htotal in Hpos. rewrite (proj2 (ltb_lt _ _) Hpos).
    rewrite Hsum, Htotal. reflexivity.
  - rewrite <- Htotal in Hnot. rewrite (proj2 (ltb_ge _ _) Hnot).
    reflexivity.
Qed.




(** On a mapping with plain names the read through the prototype is the
    read of own properties, and the score is a number. *)
Lemma weightedSumJs_plain (w m : object) (acc : Q) :
  plainNames m ->
  fold_left (fun (sum : number) '(key, value) =>
               match readProperty w key with
               | Undefined => sum
               | Own weight =>
                   match sum with
                   | Num s => Num (s + weight * value)
                   | NaN => NaN
                   end
               | Inherited => NaN
               end) m (Num acc)
  = Num (fold_left (fun sum '(key, value) =>
                      match get w key with
                      | Some weight => sum + weight * value
                      | None => sum
                      end) m acc).
Proof.
  revert acc. induction m as [|[k v] m IH]; intros acc Hplain;
    cbn [fold_left]; [reflexivity|].
  assert (Hk : isInherited k = false) by (apply Hplain; now left).
  assert (Hrest : plainNames m)
    by (intros name Hname; apply Hplain; now right).
  assert (Hread : readProperty w k
                  = match get w k with Some q => Own q | None => Undefined end)
    by (unfold readProperty; destruct (get w k); [reflexivity | now rewrite Hk]).
  rewrite Hread. destruct (get w k) as [weight|]; now apply IH.
Qed.

Lemma calculateScoreJs_plain (w m : object) :
  plainNames m -> calculateScoreJs w m = Num (calculateScoreWith w m).
Proof.
  intro Hplain. unfold calculateScoreJs, calculateScoreWith, entries.
  rewrite (weightedSumJs_plain w 0 Hplain).
  destruct (ltb 0 _); reflexivity.
Qed.


(** On an inherited name that the table does not have as its own, the
    source multiplies a function by the value: the score is not a
    number. *)
Lemma calculateScoreJs_inherited (v : Q) :
  calculateScoreJs weights [("constructor"%string, v)] = NaN.
Proof. reflexivity. Qed.




(* ================================================================== *)
(** ** Further properties of the metric functions *)

Lemma num_eq (a b : nat) : num a == num b <-> a = b.
Proof. unfold num, Qeq; simpl. lia. Qed.

Lemma num_le_iff (a b : nat) : num a <= num b <-> (a <= b)%nat.
Proof. unfold num, Qle; simpl. lia. Qed.

Lemma num_nonzero (b : nat) : (0 < b)%nat -> ~ num b == 0.
Proof. intros Hb Hzero. apply (num_eq b 0) in Hzero. lia. Qed.

Lemma ratio_eq_one (a b : nat) :
  (0 < b)%nat -> (num a / num b == 1 <-> a = b).
Proof.
  intro Hb. pose proof (num_nonzero Hb) as Hnz. split.
  - intro Hone. apply num_eq.
    pose proof (Qmult_div_r (num a) (num b) Hnz) as Hmul.
    rewrite Hone, Qmult_1_r in Hmul. now symmetry.
  - intros ->. unfold Qdiv. now apply Qmult_inv_r.
Qed.

Lemma ratio_eq_zero (a b : nat) :
  (0 < b)%nat -> (num a / num b == 0 <-> a = 0%nat).
Proof.
  intro Hb. pose proof (num_nonzero Hb) as Hnz. split.
  - intro Hzero. apply num_eq.
    pose proof (Qmult_div_r (num a) (num b) Hnz) as Hmul.
    rewrite Hzero, Qmult_0_r in Hmul. now symmetry.
  - intros ->. unfold Qdiv. apply Qmult_0_l.
Qed.

Lemma ratio_le_one (a b : nat) :
  (0 < b)%nat -> (num a / num b <= 1 <-> (a <= b)%nat).
Proof.
  intro Hb. pose proof (num_pos Hb) as Hpos. rewrite <- num_le_iff. split.
  - intro Hle. apply (Qmult_le_r _ _ (/ num b)).
    + now apply Qinv_lt_0_compat.
    + rewrite Qmult_inv_r by now apply num_nonzero. exact Hle.
  - intro Hle. apply Qle_shift_div_r; [exact Hpos|]. now rewrite Qmult_1_l.
Qed.

Lemma filter_length_all {A} (p : A -> bool) (l : list A) :
  length (filter p l) = length l <-> forall x, In x l -> p x = true.
Proof.
  induction l as [|x l IH]; simpl.
  - split; [intros _ y [] | reflexivity].
  - pose proof (filter_length_le p l) as Hle.
    destruct (p x) eqn:Hpx; simpl; split.
    + intros Hlen y [<-|Hy]; [exact Hpx|]. apply IH; [lia | exact Hy].
    + intro Hall. f_equal. apply IH. intros y Hy. apply Hall. now right.
    + intro Hlen. lia.
    + intro Hall. rewrite (Hall x) in Hpx by now left. discriminate.
Qed.

Lemma filter_length_zero {A} (p : A -> bool) (l : list A) :
  length (filter p l) = 0%nat <-> forall x, In x l -> p x = false.
Proof. rewrite length_zero_iff_nil. apply filter_nil_iff. Qed.

(** One minus a count over a positive count. *)
Lemma one_minus_ratio (a d : nat) :
  (0 < d)%nat ->
  (1 - num a / num d == 1 <-> a = 0%nat)
  /\ (0 <= 1 - num a / num d <-> (a <= d)%nat).
Proof.
  intro Hd. split.
  - rewrite <- (@ratio_eq_zero a d Hd).
    generalize (num a / num d). intro ratio. split; intro H; lra.
  - rewrite <- (@ratio_le_one a d Hd).
    generalize (num a / num d). intro ratio. split; intro H; lra.
Qed.

Lemma or_one_max (n : nat) : or_one n = Nat.max 1 n.
Proof. unfold or_one. destruct n as [|n]; simpl; [reflexivity|]. now destruct n. Qed.

Lemma calculateAvoidAny_counts (sourceFile : Node) :
  calculateAvoidAny sourceFile
  = avoidAnyOf (length (getDescendantsOfKind AnyKeyword sourceFile))
               (length (getDescendantsOfKind TypeReference sourceFile)).
Proof. reflexivity. Qed.

(** X1.  Whatever the two counts the provider returns, avoidAny never
    exceeds 1; it is 1 exactly when the count of [any] is 0; it is at
    least 0 exactly when the count of type references is 0 or the count
    of [any] does not exceed it; and with [any] but no type reference it
    is 0. *)
Theorem avoidAny_range (anyCount typeRefCount : nat) :
  avoidAnyOf anyCount typeRefCount <= 1
  /\ (avoidAnyOf anyCount typeRefCount == 1 <-> anyCount = 0%nat)
  /\ (0 <= avoidAnyOf anyCount typeRefCount <->
      typeRefCount = 0%nat \/ (anyCount <= typeRefCount)%nat)
  /\ (typeRefCount = 0%nat -> (0 < anyCount)%nat ->
      avoidAnyOf anyCount typeRefCount == 0).
Proof.
  unfold avoidAnyOf.
  destruct typeRefCount as [|refs]; simpl.
  - destruct anyCount as [|anys]; simpl.
    + destruct (@one_minus_ratio 0 1) as [Hone Hge]; [lia|].
      split; [apply one_minus_le_one; lia|].
      split; [exact Hone|]. split; [|intros _ Hpos; lia].
      rewrite Hge. split; [now left | lia].
    + destruct (@one_minus_ratio (S anys) (S anys)) as [Hone Hge]; [lia|].
      split; [apply one_minus_le_one; lia|].
      split; [exact Hone|]. split.
      * rewrite Hge. split; [now left | lia].
      * intros _ _.
        assert (Hfull : num (S anys) / num (S anys) == 1)
          by (apply ratio_eq_one; [lia | reflexivity]).
        rewrite Hfull. reflexivity.
  - destruct (@one_minus_ratio anyCount (S refs)) as [Hone Hge]; [lia|].
    split; [apply one_minus_le_one; lia|].
    split; [exact Hone|]. split; [|discriminate].
    rewrite Hge.
    split; [now right | intros [Hzero|Hle]; [discriminate | exact Hle]].
Qed.

(** X2.  avoidAssertions never exceeds 1; it is 1 exactly when the file
    has no type assertion and no non-null assertion; it is at least 0
    exactly when these are no more than the [as], call and binary
    expressions together (than 1 when there is none of these). *)
Theorem avoidAssertions_range (sourceFile : Node) :
  let assertions := (countOfKind TypeAssertionExpression sourceFile
                     + countOfKind NonNullExpression sourceFile)%nat in
  let counted := (countOfKind AsExpression sourceFile
                  + countOfKind CallExpression sourceFile
                  + countOfKind BinaryExpression sourceFile)%nat in
  calculateAvoidAssertions sourceFile <= 1
  /\ (calculateAvoidAssertions sourceFile == 1 <-> assertions = 0%nat)
  /\ (0 <= calculateAvoidAssertions sourceFile <->
      (assertions <= Nat.max 1 counted)%nat).
Proof.
  intros assertions counted.
  split; [apply calculateAvoidAssertions_le_one|].
  unfold calculateAvoidAssertions. fold assertions. fold counted.
  rewrite <- or_one_max.
  apply one_minus_ratio, or_one_pos.
Qed.

(** The share of the elements of a list that pass a test, 1 for the empty
    list: when it is 1 and when it is 0. *)
Lemma share_extremes {A} (q : A -> bool) (l : list A) :
  let share := if (length l =? 0)%nat then 1
               else num (length (filter q l)) / num (length l) in
  (share == 1 <-> forall x, In x l -> q x = true)
  /\ (share == 0 <-> l <> [] /\ forall x, In x l -> q x = false).
Proof.
  destruct l as [|x l]; cbv zeta.
  - simpl. split.
    + split; [intros _ y [] | reflexivity].
    + split; [intro Hzero; discriminate Hzero
             | intros [Hsome _]; now elim Hsome].
  - change (length (x :: l) =? 0)%nat with false. cbv iota.
    assert (Hpos : (0 < length (x :: l))%nat) by (simpl; lia).
    rewrite (ratio_eq_one _ Hpos), (ratio_eq_zero _ Hpos).
    rewrite filter_length_all, filter_length_zero. split; [tauto|].
    split; [intro Hall; split; [discriminate | exact Hall] | tauto].
Qed.

Lemma calculateReturnTypes_functions (sourceFile : Node) :
  calculateReturnTypes sourceFile = returnTypesOf (getFunctions sourceFile).
Proof. reflexivity. Qed.

(** X3.  Whatever list of functions the provider returns, returnTypes is
    a ratio; it is 1 exactly when every function of the list has a
    return-type annotation (so also for the empty list), and 0 exactly
    when the list is not empty and no function of it has one. *)
Theorem returnTypes_extremes (functions : list Node) :
  isRatio (returnTypesOf functions)
  /\ (returnTypesOf functions == 1 <->
      forall f, In f functions -> hasReturnType f)
  /\ (returnTypesOf functions == 0 <->
      functions <> []
      /\ forall f, In f functions -> getReturnTypeNode f = None).
Proof.
  unfold returnTypesOf, hasReturnType.
  set (annotated := fun f : Node =>
         match getReturnTypeNode f with Some _ => true | None => false end).
  assert (Hyes : forall f, annotated f = true <-> getReturnTypeNode f <> None)
    by (intro f; unfold annotated; destruct (getReturnTypeNode f);
        split; congruence).
  assert (Hno : forall f, annotated f = false <-> getReturnTypeNode f = None)
    by (intro f; unfold annotated; destruct (getReturnTypeNode f);
        split; congruence).
  split.
  { unfold isRatio.
    destruct (length functions =? 0)%nat eqn:Hnone; [lra|].
    apply Nat.eqb_neq in Hnone.
    apply ratio_range; [apply filter_length_le | lia]. }
  destruct (share_extremes annotated functions) as [Hone Hzero].
  cbv zeta in Hone, Hzero. rewrite Hone, Hzero. split.
  - split; intros Hall f Hf; apply Hyes, Hall, Hf.
  - split; intros [Hsome Hall]; (split; [exact Hsome|]);
      intros f Hf; apply Hno, Hall, Hf.
Qed.

Lemma fold_member_lists (classes : list (list Node)) (members withModifiers : nat) :
  fold_left (fun (c : nat * nat) clsMembers =>
               ((fst c + length clsMembers)%nat,
                (snd c + length (filter memberCounts clsMembers))%nat))
            classes (members, withModifiers)
  = ((members + length (concat classes))%nat,
     (withModifiers + length (filter memberCounts (concat classes)))%nat).
Proof.
  revert members withModifiers.
  induction classes as [|cls classes IH]; intros members withModifiers; simpl.
  - f_equal; lia.
  - rewrite IH. rewrite filter_app, !length_app. f_equal; lia.
Qed.

Lemma accessModifiersOf_eq (classes : list (list Node)) :
  accessModifiersOf classes
  = Normal (if (length (concat classes) =? 0)%nat then 1
            else num (length (filter memberCounts (concat classes)))
                 / num (length (concat classes))).
Proof.
  unfold accessModifiersOf.
  destruct classes as [|cls classes]; [reflexivity|].
  change (length (cls :: classes) =? 0)%nat with false. cbv iota.
  rewrite (@forEach_fold _ _ _
             (fun (c : nat * nat) clsMembers =>
                ((fst c + length clsMembers)%nat,
                 (snd c + length (filter memberCounts clsMembers))%nat))).
  - rewrite fold_member_lists. reflexivity.
  - intros clsMembers [members withModifiers].
    rewrite (@forEach_fold _ _ _
               (fun (c : nat * nat) member =>
                  let '(members, withModifiers) := c in
                  (S members,
                   if memberCounts member then S withModifiers
                   else withModifiers))).
    + rewrite fold_members. reflexivity.
    + intros member c. apply members_loop.
Qed.

Lemma forEach_map {A B S} (g : A -> B) (l : list A)
      (body : B -> S -> completion S) (s : S) :
  forEach (map g l) body s = forEach l (fun x => body (g x)) s.
Proof.
  revert s. induction l as [|x l IH]; intro s; simpl; [reflexivity|].
  destruct (body (g x) s); simpl; [apply IH | reflexivity].
Qed.

Lemma calculateAccessModifiers_classes (sourceFile : Node) :
  calculateAccessModifiers sourceFile
  = accessModifiersOf (map getMembers (getClasses sourceFile)).
Proof.
  unfold calculateAccessModifiers, accessModifiersOf.
  rewrite length_map, forEach_map. reflexivity.
Qed.

(** X4.  Whatever classes and members the provider returns,
    accessModifiers completes with a ratio; it is 1 exactly when every
    member of every class has the accessor and at least one modifier (so
    also without classes or members), and 0 exactly when there are members
    and none has. *)
Theorem accessModifiers_extremes (classes : list (list Node)) :
  returns (accessModifiersOf classes)
    (fun r =>
       isRatio r
       /\ (r == 1 <->
           forall member, In member (concat classes) ->
                          memberCounts member = true)
       /\ (r == 0 <->
           concat classes <> []
           /\ forall member, In member (concat classes) ->
                             memberCounts member = false)).
Proof.
  rewrite accessModifiersOf_eq. simpl. split.
  { unfold isRatio.
    destruct (length (concat classes) =? 0)%nat eqn:Hnone; [lra|].
    apply Nat.eqb_neq in Hnone.
    apply ratio_range; [apply filter_length_le | lia]. }
  apply (share_extremes memberCounts (concat classes)).
Qed.

(** X5.  useReadonly completes with a ratio; it is 1 exactly when every
    property declaration has the structure accessor and is read-only (so
    also without properties), and 0 exactly when there are properties and
    none is. *)
Theorem useReadonly_extremes (sourceFile : Node) :
  let properties := getDescendantsOfKind PropertyDeclaration sourceFile in
  returns (calculateUseReadonly sourceFile)
    (fun r =>
       isRatio r
       /\ (r == 1 <->
           forall p, In p properties -> propertyCounts (node p) = true)
       /\ (r == 0 <->
           properties <> []
           /\ forall p, In p properties -> propertyCounts (node p) = false)).
Proof.
  intro properties. rewrite calculateUseReadonly_eq. simpl.
  split; [apply useReadonlyValue_ratio|].
  apply (share_extremes (fun p => propertyCounts (node p)) properties).
Qed.

(** X6.  optionalChaining completes with a ratio; it is 0 exactly when
    the file has no [?.] and no [??] token, whether or not it has manual
    checks; it is 1 exactly when it has such a token and no [&&]
    expression. *)
Theorem optionalChaining_extremes (sourceFile : Node) :
  let modern := (countOfKind QuestionDotToken sourceFile
                 + countOfKind QuestionQuestionToken sourceFile)%nat in
  let manual := operatorCount AmpersandAmpersandToken sourceFile in
  returns (calculateOptionalChaining sourceFile)
    (fun r =>
       isRatio r
       /\ (r == 0 <-> modern = 0%nat)
       /\ (r == 1 <-> (0 < modern)%nat /\ manual = 0%nat)).
Proof.
  intros modern manual. rewrite calculateOptionalChaining_eq. simpl.
  split; [apply optionalChainingValue_ratio|].
  unfold optionalChainingValue. fold modern. fold manual.
  pose proof (or_one_pos (manual + modern)) as Hpos.
  rewrite (ratio_eq_zero _ Hpos), (ratio_eq_one _ Hpos).
  split; [tauto|]. rewrite or_one_max. lia.
Qed.

Lemma parentIsListWith_iff (mask : N) (v : Descendant) :
  parentIsListWith mask v = true
  <-> getKind (getParent v) = VariableDeclarationList
      /\ N.land (getFlags (getParent v)) mask <> 0%N.
Proof.
  unfold parentIsListWith.
  rewrite andb_true_iff, kind_eqb_eq, negb_true_iff, N.eqb_neq. tauto.
Qed.

Lemma parentIsListWith_not (mask : N) (v : Descendant) :
  parentIsListWith mask v = false
  <-> ~ (getKind (getParent v) = VariableDeclarationList
         /\ N.land (getFlags (getParent v)) mask <> 0%N).
Proof.
  rewrite <- parentIsListWith_iff.
  destruct (parentIsListWith mask v); split; congruence.
Qed.

(** X7.  preferConst is a ratio; it is 1 exactly when no variable
    declaration sits in a [let] list, whatever sits in [var] lists; it is
    0 exactly when some declaration sits in a [let] list and none in a
    [const] list. *)
Theorem preferConst_extremes (sourceFile : Node) :
  let declarations := getDescendantsOfKind VariableDeclaration sourceFile in
  isRatio (calculatePreferConst sourceFile)
  /\ (calculatePreferConst sourceFile == 1 <->
      forall v, In v declarations -> ~ inLetList v)
  /\ (calculatePreferConst sourceFile == 0 <->
      (exists v, In v declarations /\ inLetList v)
      /\ forall v, In v declarations -> ~ inConstList v).
Proof.
  intro declarations. split; [apply calculatePreferConst_ratio|].
  unfold calculatePreferConst, inLetList, inConstList. fold declarations.
  set (lets := filter (parentIsListWith NodeFlags.Let) declarations).
  set (consts := filter (parentIsListWith NodeFlags.Const) declarations).
  assert (Hlets : length lets = 0%nat <->
            forall v, In v declarations ->
              ~ (getKind (getParent v) = VariableDeclarationList
                 /\ N.land (getFlags (getParent v)) NodeFlags.Let <> 0%N)).
  { unfold lets. rewrite filter_length_zero.
    split; intros Hall v Hv; apply parentIsListWith_not, Hall, Hv. }
  assert (Hconsts : length consts = 0%nat <->
            forall v, In v declarations ->
              ~ (getKind (getParent v) = VariableDeclarationList
                 /\ N.land (getFlags (getParent v)) NodeFlags.Const <> 0%N)).
  { unfold consts. rewrite filter_length_zero.
    split; intros Hall v Hv; apply parentIsListWith_not, Hall, Hv. }
  assert (Hsome : (0 < length lets)%nat <->
            exists v, In v declarations
              /\ getKind (getParent v) = VariableDeclarationList
              /\ N.land (getFlags (getParent v)) NodeFlags.Let <> 0%N).
  { unfold lets. split.
    - intro Hpos.
      destruct (filter (parentIsListWith NodeFlags.Let) declarations)
        as [|v rest] eqn:Hfilter; [simpl in Hpos; lia|].
      assert (Hin : In v (filter (parentIsListWith NodeFlags.Let) declarations))
        by (rewrite Hfilter; now left).
      apply filter_In in Hin. destruct Hin as [Hin Hv].
      exists v. split; [exact Hin | now apply parentIsListWith_iff].
    - intros [v [Hin Hv]].
      assert (Hfiltered : In v (filter (parentIsListWith NodeFlags.Let)
                                       declarations))
        by (apply filter_In; split; [exact Hin | now apply parentIsListWith_iff]).
      destruct (filter (parentIsListWith NodeFlags.Let) declarations);
        [destruct Hfiltered | simpl; lia]. }
  rewrite <- Hlets, <- Hconsts, <- Hsome.
  destruct (length lets + length consts =? 0)%nat eqn:Htotal.
  - apply Nat.eqb_eq in Htotal. split.
    + split; [lia | reflexivity].
    + split; [intro Hzero; discriminate Hzero | lia].
  - apply Nat.eqb_neq in Htotal.
    assert (Hpos : (0 < length lets + length consts)%nat) by lia.
    rewrite (ratio_eq_one _ Hpos), (ratio_eq_zero _ Hpos). lia.
Qed.

(* ------------------------------------------------------------------ *)

Lemma num_mult (a b : nat) : num (a * b) == num a * num b.
Proof. unfold num, Qeq; simpl. lia. Qed.

Lemma ratio_ge (k a b : nat) :
  (0 < b)%nat -> (num k <= num a / num b <-> (k * b <= a)%nat).
Proof.
  intro Hb. pose proof (num_pos Hb) as Hpos.
  rewrite <- num_le_iff, num_mult. split.
  - intro Hle. apply (Qmult_le_r _ _ (num b) Hpos) in Hle.
    rewrite (Qmult_comm (num a / num b)) in Hle.
    now rewrite (Qmult_div_r (num a) (num b) (num_nonzero Hb)) in Hle.
  - intro Hle. now apply Qle_shift_div_l.
Qed.

Lemma totalComplexity_all_one (functions : list Node) (total : nat) :
  fold_left (fun total f => (total + complexityOf f)%nat) functions total
  = (total + length functions)%nat
  <-> forall f, In f functions -> complexityOf f = 1%nat.
Proof.
  revert total. induction functions as [|f functions IH]; intro total; simpl.
  - split; [intros _ g [] | lia].
  - pose proof (totalComplexity_ge functions (total + complexityOf f)) as Hge.
    assert (Hone : (1 <= complexityOf f)%nat) by (unfold complexityOf; lia).
    split.
    + intro Hsum.
      assert (Hf : complexityOf f = 1%nat) by lia.
      intros g [<-|Hg]; [exact Hf|].
      apply (IH (total + complexityOf f)%nat); [lia | exact Hg].
    + intro Hall.
      rewrite (proj2 (IH (total + complexityOf f)%nat))
        by (intros g Hg; apply Hall; now right).
      rewrite (Hall f) by now left. lia.
Qed.

Lemma complexityOver_eq (functions : list Node) :
  complexityOver functions
  = Normal (if (length functions =? 0)%nat then 1
            else Qmax 0 (1 - (num (totalComplexityOf functions)
                              / num (length functions) - 1) / 5)).
Proof.
  unfold complexityOver, totalComplexityOf.
  destruct (length functions =? 0)%nat; [reflexivity|].
  rewrite (@forEach_fold _ _ _
             (fun total f => (total + complexityOf f)%nat)).
  - reflexivity.
  - intros f total.
    rewrite (@filterM_filter _ _
               (fun e => operatorIs AmpersandAmpersandToken (node e)))
      by (intro; apply hasOperator_eq).
    simpl.
    rewrite (@filterM_filter _ _ (fun e => operatorIs BarBarToken (node e)))
      by (intro; apply hasOperator_eq).
    reflexivity.
Qed.

Lemma calculateComplexity_functions (sourceFile : Node) :
  calculateComplexity sourceFile = complexityOver (getFunctions sourceFile).
Proof. reflexivity. Qed.

(** X8.  Whatever list of functions the provider returns, complexity
    completes with a ratio; it is 1 exactly when every function of the
    list has complexity 1, that is no counted construct below it (so also
    for the empty list); it is 0 exactly when the list is not empty and
    the complexities add up to six or more per function. *)
Theorem complexity_extremes (functions : list Node) :
  returns (complexityOver functions)
    (fun r =>
       isRatio r
       /\ (r == 1 <-> forall f, In f functions -> complexityOf f = 1%nat)
       /\ (r == 0 <->
           functions <> []
           /\ (6 * length functions <= totalComplexityOf functions)%nat)).
Proof.
  rewrite complexityOver_eq. simpl.
  destruct functions as [|f rest] eqn:Hfunctions.
  - simpl. split; [unfold isRatio; lra|]. split.
    + split; [intros _ g [] | reflexivity].
    + split; [intro Hzero; discriminate Hzero
             | intros [Hsome _]; now elim Hsome].
  - rewrite <- Hfunctions.
    assert (Hpos : (0 < length functions)%nat) by (rewrite Hfunctions; simpl; lia).
    replace (length functions =? 0)%nat with false
      by (symmetry; apply Nat.eqb_neq; lia).
    pose proof (@ratio_eq_one (totalComplexityOf functions) (length functions) Hpos)
      as Hone.
    pose proof (@ratio_ge 6 (totalComplexityOf functions) (length functions) Hpos)
      as Hsix.
    pose proof (@ratio_ge 1 (totalComplexityOf functions) (length functions) Hpos)
      as Hleast.
    assert (Hge : (1 * length functions <= totalComplexityOf functions)%nat)
      by (pose proof (totalComplexity_ge functions 0); unfold totalComplexityOf;
          simpl in *; lia).
    apply Hleast in Hge.
    pose proof (totalComplexity_all_one functions 0) as Hall.
    change (fold_left (fun total f => (total + complexityOf f)%nat) functions 0%nat)
      with (totalComplexityOf functions) in Hall. simpl in Hall.
    rewrite <- Hall, <- Hone, <- Hsix.
    change (num 6) with 6. change (num 1) with 1 in Hge.
    revert Hge.
    generalize (num (totalComplexityOf functions) / num (length functions)).
    intros avg Hge.
    assert (Hvalue : 1 - (avg - 1) / 5 == (6 - avg) * (1 # 5)) by field.
    unfold isRatio. rewrite Hvalue.
    destruct (Q.max_spec 0 ((6 - avg) * (1 # 5))) as [[Hlt ->]|[Hle ->]].
    + split; [lra|]. split.
      * split; intro H; lra.
      * split; [intro H; lra|]. intros [_ H]. lra.
    + split; [lra|]. split.
      * split; intro H; lra.
      * split; [intros _; split; [rewrite Hfunctions; discriminate | lra]
               | reflexivity].
Qed.

(* ------------------------------------------------------------------ *)

(** Induction on a tree through the children of its nodes. *)
Lemma Node_children_ind (P : Node -> Prop) :
  (forall n, Forall P (children n) -> P n) -> forall n, P n.
Proof.
  intro step. fix IH 1. intro n. apply step.
  destruct n as [kind flags cs returnType modifiers operator structure].
  simpl. clear - IH.
  induction cs as [|c cs IHcs]; constructor; [apply IH | exact IHcs].
Qed.

Lemma getNesting_unfold (n : Node) (current : nat) :
  getNesting n current
  = fold_left (fun localMax child =>
                 if existsb (kind_eqb (getKind child)) nestingKinds
                 then Nat.max localMax (getNesting child (current + 1))
                 else Nat.max localMax (getNesting child current))
              (children n) current.
Proof. destruct n; reflexivity. Qed.

Lemma nestingDepth_unfold (n : Node) :
  nestingDepth n
  = list_max
      (map (fun child =>
              if existsb (kind_eqb (getKind child)) nestingKinds
              then S (nestingDepth child)
              else nestingDepth child)
           (children n)).
Proof. destruct n; reflexivity. Qed.

Lemma fold_left_ext_in {A B} (f g : A -> B -> A) (l : list B) (a : A) :
  (forall x, In x l -> forall a, f a x = g a x) ->
  fold_left f l a = fold_left g l a.
Proof.
  revert a. induction l as [|x l IH]; intros a Hfg; simpl; [reflexivity|].
  rewrite (Hfg x) by now left. apply IH. intros y Hy. apply Hfg. now right.
Qed.

(** A running maximum started at or above the base. *)
Lemma fold_max_shift {B} (g : B -> nat) (base : nat) (l : list B) (m : nat) :
  (base <= m)%nat ->
  fold_left (fun localMax x => Nat.max localMax (base + g x)) l m
  = Nat.max m (base + list_max (map g l)).
Proof.
  revert m. induction l as [|x l IH]; intros m Hm; simpl.
  - lia.
  - rewrite IH by lia. lia.
Qed.

Lemma getNesting_plus_depth (n : Node) (current : nat) :
  getNesting n current = (current + nestingDepth n)%nat.
Proof.
  revert current. induction n as [n IHchildren] using Node_children_ind.
  intro current. rewrite getNesting_unfold, nestingDepth_unfold.
  rewrite Forall_forall in IHchildren.
  rewrite (fold_left_ext_in
             (fun localMax child =>
                if existsb (kind_eqb (getKind child)) nestingKinds
                then Nat.max localMax (getNesting child (current + 1))
                else Nat.max localMax (getNesting child current))
             (fun localMax child =>
                Nat.max localMax
                  (current
                   + (if existsb (kind_eqb (getKind child)) nestingKinds
                      then S (nestingDepth child)
                      else nestingDepth child)))).
  - rewrite fold_max_shift by lia. lia.
  - intros child Hchild localMax.
    rewrite !(IHchildren child Hchild).
    destruct (existsb (kind_eqb (getKind child)) nestingKinds); f_equal; lia.
Qed.

(** X9.  [getNesting] started at [current] returns [current] plus the
    longest chain of nesting constructs (if, switch and the five loops)
    below the node: the depth grows by one per construct on the chain and
    by nothing else; the start only shifts the result, which is never
    below it. *)
Theorem getNesting_depth (n : Node) (current : nat) :
  getNesting n current = (current + nestingDepth n)%nat
  /\ (forall k, getNesting n (current + k) = (getNesting n current + k)%nat)
  /\ (current <= getNesting n current)%nat.
Proof.
  split; [apply getNesting_plus_depth|]. split.
  - intro k. rewrite !getNesting_plus_depth. lia.
  - rewrite getNesting_plus_depth. lia.
Qed.





(* ================================================================== *)
(** ** Further properties of the score and of the suggestions *)

Lemma sumOver_bounds (names : list string) (f : string -> Q) (low high : Q) :
  (forall name, In name names -> low <= f name /\ f name <= high) ->
  num (length names) * low <= sumOver names f
  /\ sumOver names f <= num (length names) * high.
Proof.
  induction names as [|name names IH]; intro Hall.
  - simpl. change (num 0) with 0. lra.
  - destruct IH as [IHlow IHhigh]; [intros n Hn; apply Hall; now right|].
    destruct (Hall name) as [Hlow Hhigh]; [now left|].
    assert (Hlen : num (length (name :: names)) == 1 + num (length names)).
    { change (length (name :: names)) with (S (length names)).
      unfold num, Qeq, Qplus, inject_Z. rewrite Nat2Z.inj_succ.
      cbn [Qnum Qden]. lia. }
    simpl sumOver. rewrite Hlen.
    revert IHlow IHhigh. generalize (sumOver names f), (num (length names)).
    intros. nra.
Qed.

Lemma get_In (o : object) (name : string) (v : Q) :
  get o name = Some v -> In (name, v) o.
Proof.
  induction o as [|[k w] o IH]; simpl; [discriminate|].
  destruct (String.eqb_spec k name) as [->|_].
  - intro Hv. injection Hv as ->. now left.
  - intro Hv. right. now apply IH.
Qed.

Lemma hasKey_In (o : object) (name : string) :
  hasKey o name = true <-> In name (keys o).
Proof.
  unfold hasKey. rewrite existsb_exists. split.
  - intros [k [Hk Heq]]. apply String.eqb_eq in Heq. now subst.
  - intro Hin. exists name. split; [exact Hin | apply String.eqb_refl].
Qed.

Lemma weights_wf : wf weights.
Proof.
  unfold wf, keys, weights. simpl.
  repeat (constructor; [simpl; intuition discriminate|]). constructor.
Qed.

Lemma weights_value (name : string) :
  hasKey weights name = true -> valueOf weights name = 10.
Proof.
  intro Hkey. apply hasKey_In in Hkey. simpl in Hkey.
  repeat (destruct Hkey as [<-|Hkey]; [reflexivity|]). destruct Hkey.
Qed.

(** With the weight table of the module the score is the weighted sum
    itself: the weights add up to 100. *)
Lemma calculateScore_common (m : object) :
  wf m -> calculateScore m == commonWeightedSum weights m.
Proof.
  intro Hwf. unfold calculateScore.
  rewrite (calculateScoreWith_tableScore weights Hwf). unfold tableScore.
  destruct (Qlt_le_dec 0 (sumOver (keys weights) (valueOf weights)))
    as [_|Hnot]; [|vm_compute in Hnot; now elim Hnot].
  assert (Htable : sumOver (keys weights) (valueOf weights) == 100)
    by (vm_compute; reflexivity).
  rewrite Htable. field.
Qed.

Lemma nestedMetrics_plain : plainNames nestedMetrics.
Proof.
  intros name Hname. simpl in Hname.
  repeat (destruct Hname as [<-|Hname]; [reflexivity|]). destruct Hname.
Qed.

Lemma score_bounds_of_ratios (m : object) :
  wf m ->
  (forall name v, In (name, v) m -> isRatio v) ->
  0 <= calculateScore m /\ calculateScore m <= 100.
Proof.
  intros Hwf Hratios. rewrite (calculateScore_common Hwf).
  unfold commonWeightedSum.
  assert (Hterms : forall name, In name (commonNames m weights) ->
            0 <= valueOf weights name * valueOf m name
            /\ valueOf weights name * valueOf m name <= 10).
  { intros name Hname. unfold commonNames in Hname.
    apply filter_In in Hname. destruct Hname as [Hkey Hweight].
    rewrite (weights_value _ Hweight).
    assert (Hvalue : 0 <= valueOf m name /\ valueOf m name <= 1).
    { unfold valueOf. destruct (get m name) as [v|] eqn:Hget; [|lra].
      apply (Hratios name v). now apply get_In. }
    revert Hvalue. generalize (valueOf m name). intros value [Hlow Hhigh].
    split; lra. }
  destruct (sumOver_bounds _ _ Hterms) as [Hlow Hhigh].
  assert (Hcount : (length (commonNames m weights) <= 10)%nat).
  { change 10%nat with (length (keys weights)).
    apply NoDup_incl_length.
    - unfold commonNames. apply NoDup_filter. exact Hwf.
    - intros name Hname. unfold commonNames in Hname.
      apply filter_In in Hname. now apply hasKey_In. }
  apply num_le in Hcount. change (num 10) with 10 in Hcount.
  pose proof (num_nonneg (length (commonNames m weights))) as Hnonneg.
  revert Hlow Hhigh Hcount Hnonneg.
  generalize (num (length (commonNames m weights))).
  generalize (sumOver (commonNames m weights)
                (fun name => valueOf weights name * valueOf m name)).
  intros total count Hlow Hhigh Hcount Hnonneg. split; lra.
Qed.

(** X11.  For a mapping with each key once, none of them a name that
    every object inherits, and every value a ratio, the score is a number
    between 0 and 100. *)
Theorem score_of_ratios_in_range (m : object) :
  wf m ->
  plainNames m ->
  (forall name v, In (name, v) m -> isRatio v) ->
  exists s, calculateScoreJs weights m = Num s /\ 0 <= s /\ s <= 100.
Proof.
  intros Hwf Hplain Hratios. exists (calculateScore m).
  split; [now apply calculateScoreJs_plain|].
  now apply score_bounds_of_ratios.
Qed.

Lemma score_of_ratios_in_range_witness :
  exists s, calculateScoreJs weights nestedMetrics = Num s
            /\ 0 <= s /\ s <= 100.
Proof.
  apply (@score_of_ratios_in_range nestedMetrics).
  - unfold wf, keys, nestedMetrics. simpl.
    repeat (constructor; [simpl; intuition discriminate|]). constructor.
  - exact nestedMetrics_plain.
  - intros name v Hin. simpl in Hin.
    repeat (destruct Hin as [Hin|Hin];
            [injection Hin as _ <-; split; vm_compute; discriminate|]).
    destruct Hin.
Defined.






(* ------------------------------------------------------------------ *)

Lemma NoDup_map_filter {A B} (text : A -> B) (keep : A -> bool) (names : list A) :
  NoDup (map text names) -> NoDup (map text (filter keep names)).
Proof.
  intro Hdistinct.
  induction names as [|x names IH]; simpl; [constructor|].
  simpl in Hdistinct. inversion Hdistinct as [|? ? Hfresh Hrest]; subst.
  destruct (keep x); simpl; [|now apply IH].
  constructor; [|now apply IH].
  intro Hin. apply Hfresh. apply in_map_iff in Hin.
  destruct Hin as [y [Heq Hy]]. apply filter_In in Hy.
  rewrite <- Heq. apply in_map. tauto.
Qed.

Lemma suggestion_texts_distinct : NoDup (map suggestionFor metricNames).
Proof.
  unfold metricNames. cbn [map].
  repeat (constructor; [vm_compute; intuition discriminate|]). constructor.
Qed.

(** X13.  Whatever the mapping holds, the suggestions are distinct texts
    among the ten fixed ones, so at most ten; each one comes from a metric
    that the mapping has with a value strictly below 1; a metric the
    mapping lacks gives none; and two mappings that agree on the ten
    metrics get the same suggestions. *)
Theorem suggestions_shape (m : object) :
  NoDup (generateSuggestions m)
  /\ (length (generateSuggestions m) <= 10)%nat
  /\ (forall text, In text (generateSuggestions m) ->
        exists name v, In name metricNames /\ text = suggestionFor name
                       /\ get m name = Some v /\ v < 1)
  /\ (forall name, In name metricNames -> get m name = None ->
        ~ In (suggestionFor name) (generateSuggestions m))
  /\ (forall m', (forall name, In name metricNames -> get m' name = get m name) ->
        generateSuggestions m' = generateSuggestions m).
Proof.
  rewrite generateSuggestions_filter.
  assert (Hsource : forall text,
            In text (map suggestionFor (filter (belowOne m) metricNames)) ->
            exists name v, In name metricNames /\ text = suggestionFor name
                           /\ get m name = Some v /\ v < 1).
  { intros text Hin. apply in_map_iff in Hin.
    destruct Hin as [name [<- Hname]]. apply filter_In in Hname.
    destruct Hname as [Hname Hbelow]. unfold belowOne in Hbelow.
    destruct (get m name) as [v|] eqn:Hget; [|discriminate].
    exists name, v. repeat split; try assumption.
    destruct (Qlt_le_dec v 1); [assumption | discriminate]. }
  split; [apply NoDup_map_filter, suggestion_texts_distinct|].
  split; [rewrite length_map;
          apply (Nat.le_trans _ _ _ (filter_length_le _ _)); reflexivity|].
  split; [exact Hsource|]. split.
  - intros name Hname Hnone Hin.
    destruct (Hsource _ Hin) as [name' [v [Hname' [Heq [Hget _]]]]].
    apply (suggestionFor_injective Hname Hname') in Heq. subst name'.
    congruence.
  - intros m' Hsame. rewrite generateSuggestions_filter. f_equal.
    apply filter_ext_in. intros name Hname. unfold belowOne.
    now rewrite (Hsame name Hname).
Qed.

(* ================================================================== *)
(** ** Further properties of the per-file action *)

Lemma suggestions_nil_iff (m : object) :
  hasAllMetrics m -> atMostOne m ->
  (generateSuggestions m = [] <->
   forall name, In name metricNames -> isOne m name).
Proof.
  intros Hall Hmost. rewrite generateSuggestions_filter. split.
  - intros Hnil name Hname.
    apply map_eq_nil in Hnil.
    destruct (Hall name Hname) as [v Hget]. exists v. split; [exact Hget|].
    apply Qle_antisym; [now apply (Hmost name)|].
    pose proof (proj1 (filter_nil_iff _ _) Hnil name Hname) as Hnot.
    unfold belowOne in Hnot. rewrite Hget in Hnot.
    destruct (Qlt_le_dec v 1); [discriminate | assumption].
  - intro Hones.
    replace (filter (belowOne m) metricNames) with (@nil string);
      [reflexivity|].
    symmetry. apply filter_nil_iff. intros name Hname.
    destruct (Hones name Hname) as [v [Hget Hv]].
    unfold belowOne. rewrite Hget.
    destruct (Qlt_le_dec v 1) as [Hlt|]; [|reflexivity].
    rewrite Hv in Hlt. now apply Qlt_irrefl in Hlt.
Qed.

Lemma metricSetOf_score (a b c d e f g h i j : Q) :
  calculateScore (metricSetOf a b c d e f g h i j)
  == 10 * (a + b + c + d + e + f + g + h + i + j).
Proof.
  unfold calculateScore, calculateScoreWith, weights, metricSetOf. simpl.
  unfold Qdiv.
  change (/ (0 + 10 + 10 + 10 + 10 + 10 + 10 + 10 + 10 + 10 + 10))
    with (1 # 100).
  ring.
Qed.

Lemma metricSetOf_values (P : Q -> Prop) (a b c d e f g h i j : Q) :
  (forall name v, In name metricNames ->
                  get (metricSetOf a b c d e f g h i j) name = Some v -> P v)
  <-> P a /\ P b /\ P c /\ P d /\ P e /\ P f /\ P g /\ P h /\ P i /\ P j.
Proof.
  split.
  - intro Hall.
    repeat split;
      match goal with
      | |- P ?x =>
          first [ apply (Hall "avoidAny"%string x); [simpl; tauto | reflexivity]
                | apply (Hall "returnTypes"%string x); [simpl; tauto | reflexivity]
                | apply (Hall "accessModifiers"%string x); [simpl; tauto | reflexivity]
                | apply (Hall "complexity"%string x); [simpl; tauto | reflexivity]
                | apply (Hall "nesting"%string x); [simpl; tauto | reflexivity]
                | apply (Hall "preferConst"%string x); [simpl; tauto | reflexivity]
                | apply (Hall "avoidAssertions"%string x); [simpl; tauto | reflexivity]
                | apply (Hall "useReadonly"%string x); [simpl; tauto | reflexivity]
                | apply (Hall "avoidVar"%string x); [simpl; tauto | reflexivity]
                | apply (Hall "optionalChaining"%string x); [simpl; tauto | reflexivity] ]
      end.
  - intros [Ha [Hb [Hc [Hd [He [Hf [Hg [Hh [Hi Hj]]]]]]]]] name v Hname Hget.
    repeat (destruct Hname as [<-|Hname];
            [simpl in Hget; injection Hget as <-; assumption|]).
    destruct Hname.
Qed.

Lemma metricSetOf_hasAll (a b c d e f g h i j : Q) :
  hasAllMetrics (metricSetOf a b c d e f g h i j).
Proof.
  intros name Hname.
  repeat (destruct Hname as [<-|Hname]; [eexists; reflexivity|]).
  destruct Hname.
Qed.

Lemma collectMetrics_metricSetOf (sourceFile : Node) :
  collectMetrics sourceFile
  = Normal (metricSetOf (calculateAvoidAny sourceFile)
                        (calculateReturnTypes sourceFile)
                        (accessModifiersValue sourceFile)
                        (complexityValue sourceFile)
                        (calculateNesting sourceFile)
                        (calculatePreferConst sourceFile)
                        (calculateAvoidAssertions sourceFile)
                        (useReadonlyValue sourceFile)
                        (calculateAvoidVar sourceFile)
                        (optionalChainingValue sourceFile)).
Proof. apply collectMetrics_eq. Qed.

Lemma metricSetOf_plain (a b c d e f g h i j : Q) :
  plainNames (metricSetOf a b c d e f g h i j).
Proof.
  intros name Hname. simpl in Hname.
  repeat (destruct Hname as [<-|Hname]; [reflexivity|]). destruct Hname.
Qed.

(** The score of the action is the number the source computes: the ten
    names of its metric set are plain. *)
Lemma scoreFile_score_number (path : string) (sourceFile : Node) :
  returns (scoreFile path sourceFile)
    (fun r => calculateScoreJs weights (metrics r) = Num (score r)).
Proof.
  unfold scoreFile. rewrite collectMetrics_metricSetOf. simpl returns.
  cbn [metrics score]. apply calculateScoreJs_plain, metricSetOf_plain.
Qed.

(** X14.  On every tree and for every file name the action completes;
    its metric set has the ten metrics under their names, in the canonical
    order; none exceeds 1, and all but avoidAny and avoidAssertions are at
    least 0; the score is at most 100. *)
Theorem scoreFile_result (path : string) (sourceFile : Node) :
  returns (scoreFile path sourceFile)
    (fun r =>
       keys (metrics r) = metricNames
       /\ atMostOne (metrics r)
       /\ (forall name v, In name metricNames ->
             get (metrics r) name = Some v ->
             name <> "avoidAny"%string -> name <> "avoidAssertions"%string ->
             0 <= v)
       /\ score r <= 100).
Proof.
  unfold scoreFile. rewrite collectMetrics_metricSetOf. simpl returns.
  cbn [metrics score].
  pose proof (calculateAvoidAny_le_one sourceFile) as Ha.
  pose proof (calculateAvoidAssertions_le_one sourceFile) as Hg.
  destruct (calculateReturnTypes_ratio sourceFile) as [Hb' Hb].
  destruct (accessModifiersValue_ratio sourceFile) as [Hc' Hc].
  destruct (complexityValue_ratio sourceFile) as [Hd' Hd].
  destruct (calculateNesting_ratio sourceFile) as [He' He].
  destruct (calculatePreferConst_ratio sourceFile) as [Hf' Hf].
  destruct (useReadonlyValue_ratio sourceFile) as [Hh' Hh].
  destruct (calculateAvoidVar_ratio sourceFile) as [Hi' Hi].
  destruct (optionalChainingValue_ratio sourceFile) as [Hj' Hj].
  revert Ha Hb Hc Hd He Hf Hg Hh Hi Hj Hb' Hc' Hd' He' Hf' Hh' Hi' Hj'.
  generalize (calculateAvoidAny sourceFile), (calculateReturnTypes sourceFile),
    (accessModifiersValue sourceFile), (complexityValue sourceFile),
    (calculateNesting sourceFile), (calculatePreferConst sourceFile),
    (calculateAvoidAssertions sourceFile), (useReadonlyValue sourceFile),
    (calculateAvoidVar sourceFile), (optionalChainingValue sourceFile).
  intros a b c d e f g h i j Ha Hb Hc Hd He Hf Hg Hh Hi Hj
         Hb' Hc' Hd' He' Hf' Hh' Hi' Hj'.
  split; [reflexivity|]. split.
  { unfold atMostOne. apply (metricSetOf_values (fun v => v <= 1)). tauto. }
  split.
  { intros name v Hname Hget Hany Hassert.
    repeat (destruct Hname as [<-|Hname];
            [simpl in Hget; injection Hget as <-;
             first [assumption | now elim Hany | now elim Hassert]|]).
    destruct Hname. }
  rewrite metricSetOf_score. lra.
Qed.

(** X15.  For the result of the action on any tree, the suggestion list
    is empty exactly when the score is 100, and that is exactly when each
    of the ten metrics is 1. *)
Theorem perfect_score_iff (file : string) (sourceFile : Node) :
  returns (scoreFile file sourceFile)
    (fun r =>
       (suggestions r = [] <-> score r == 100)
       /\ (score r == 100 <->
           forall name, In name metricNames -> isOne (metrics r) name)).
Proof.
  unfold scoreFile. rewrite collectMetrics_metricSetOf. simpl returns.
  cbn [metrics suggestions score].
  pose proof (calculateAvoidAny_le_one sourceFile) as Ha.
  pose proof (calculateAvoidAssertions_le_one sourceFile) as Hg.
  destruct (calculateReturnTypes_ratio sourceFile) as [_ Hb].
  destruct (accessModifiersValue_ratio sourceFile) as [_ Hc].
  destruct (complexityValue_ratio sourceFile) as [_ Hd].
  destruct (calculateNesting_ratio sourceFile) as [_ He].
  destruct (calculatePreferConst_ratio sourceFile) as [_ Hf].
  destruct (useReadonlyValue_ratio sourceFile) as [_ Hh].
  destruct (calculateAvoidVar_ratio sourceFile) as [_ Hi].
  destruct (optionalChainingValue_ratio sourceFile) as [_ Hj].
  revert Ha Hb Hc Hd He Hf Hg Hh Hi Hj.
  generalize (calculateAvoidAny sourceFile), (calculateReturnTypes sourceFile),
    (accessModifiersValue sourceFile), (complexityValue sourceFile),
    (calculateNesting sourceFile), (calculatePreferConst sourceFile),
    (calculateAvoidAssertions sourceFile), (useReadonlyValue sourceFile),
    (calculateAvoidVar sourceFile), (optionalChainingValue sourceFile).
  intros a b c d e f g h i j Ha Hb Hc Hd He Hf Hg Hh Hi Hj.
  assert (Hscore :
    calculateScore (metricSetOf a b c d e f g h i j) == 100 <->
    forall name, In name metricNames ->
                 isOne (metricSetOf a b c d e f g h i j) name).
  { rewrite metricSetOf_score. split.
    - intros Hsum name Hname.
      destruct (metricSetOf_hasAll a b c d e f g h i j Hname) as [v Hget].
      exists v. split; [exact Hget|].
      revert name v Hname Hget. apply (metricSetOf_values (fun v => v == 1)).
      repeat split; lra.
    - intro Hones.
      assert (Hvalues : forall name v, In name metricNames ->
                get (metricSetOf a b c d e f g h i j) name = Some v -> v == 1).
      { intros name v Hname Hget. destruct (Hones name Hname) as [w [Hw Hone]].
        congruence. }
      apply (metricSetOf_values (fun v => v == 1)) in Hvalues.
      destruct Hvalues as [-> [-> [-> [-> [-> [-> [-> [-> [-> ->]]]]]]]]].
      reflexivity. }
  split; [|exact Hscore].
  rewrite Hscore. apply suggestions_nil_iff.
  - apply metricSetOf_hasAll.
  - unfold atMostOne. apply (metricSetOf_values (fun v => v <= 1)). tauto.
Qed.

(* ================================================================== *)
(** ** File discovery *)

Section DiscoveryProperties.

Variable resolve : string -> string -> string.
Variable extname : string -> string.

(** Induction on what a path leads to, through the listing of a
    directory. *)
Lemma Entry_listing_ind (P : Fs.Entry -> Prop) :
  P Fs.NotDirectory ->
  (forall e, P (Fs.Unlistable e)) ->
  (forall e, P (Fs.Unreachable e)) ->
  (forall listing,
      Forall (fun named : string * Fs.Entry => P (snd named)) listing ->
      P (Fs.Directory listing)) ->
  forall e, P e.
Proof.
  intros Hfile Hunlistable Hunreachable Hdir. fix IH 1.
  intros [|listing|e|e];
    [exact Hfile | | apply Hunlistable | apply Hunreachable].
  apply Hdir. induction listing as [|[name entry] listing IHlisting];
    constructor; [apply IH | exact IHlisting].
Qed.

Lemma firstFailure_cons (name : string) (entry : Fs.Entry)
      (rest : list (string * Fs.Entry)) :
  firstFailure (Fs.Directory ((name, entry) :: rest))
  = match firstFailure entry with
    | Some e => Some e
    | None => firstFailure (Fs.Directory rest)
    end.
Proof. reflexivity. Qed.

(** A failure below an entry comes from something broken, and without a
    failure nothing is. *)
Lemma firstFailure_broken (entry : Fs.Entry) :
  (firstFailure entry = None -> ~ Broken entry)
  /\ (forall e, firstFailure entry = Some e -> Broken entry).
Proof.
  induction entry as [|e|e|listing IHlisting] using Entry_listing_ind.
  - split; [intros _ Hbroken; inversion Hbroken | discriminate].
  - split; [discriminate | intros; constructor].
  - split; [discriminate | intros; constructor].
  - induction IHlisting as [|[name entry] rest [Hsound Hfails] _ IHrest].
    + split; [|discriminate]. intros _ Hbroken.
      inversion Hbroken as [| |? ? ? Hin _]; subst. destruct Hin.
    + rewrite firstFailure_cons. cbn [snd] in Hsound, Hfails.
      destruct IHrest as [IHsound IHfails].
      destruct (firstFailure entry) as [e|] eqn:Hfirst.
      * split; [discriminate|]. intros e' _.
        eapply Broken_below; [left; reflexivity | now apply (Hfails e)].
      * split.
        -- intros Hrest Hbroken.
           inversion Hbroken as [| |? name' entry' Hin Hbelow]; subst.
           destruct Hin as [Hhead|Hin].
           ++ injection Hhead as -> ->. now apply Hsound.
           ++ apply (IHsound Hrest).
              eapply Broken_below; [exact Hin | exact Hbelow].
        -- intros e Hrest. specialize (IHfails e Hrest).
           inversion IHfails as [| |? name' entry' Hin Hbelow]; subst.
           eapply Broken_below; [right; exact Hin | exact Hbelow].
Qed.

Lemma firstFailure_none (entry : Fs.Entry) :
  firstFailure entry = None <-> ~ Broken entry.
Proof.
  destruct (firstFailure_broken entry) as [Hsound Hfails]. split.
  - exact Hsound.
  - intro Hnot. destruct (firstFailure entry) as [e|]; [|reflexivity].
    elim Hnot. now apply (Hfails e).
Qed.

(** X16.  [getTsFiles] completes exactly on a directory that can be read
    and below which every directory can be read and every entry reached;
    it then returns exactly the entries below it, at any depth, that are
    not directories and whose extension is [.ts] or [.tsx], in listing
    order, a sub-directory's files at the place of the sub-directory, and
    never a directory, whatever its name.  Otherwise it fails as a whole,
    with [ENOTDIR] on a path that is not a directory, and else with the
    first failure in listing order: no file found before it is
    returned. *)
Theorem getTsFiles_lists_ts_files (dir : string) (here : Fs.Entry) :
  ((exists files, getTsFiles resolve extname dir here = Fs.Ok files)
   <-> (exists listing, here = Fs.Directory listing) /\ ~ Broken here)
  /\ (here = Fs.NotDirectory ->
      getTsFiles resolve extname dir here = Fs.Fail Fs.ENOTDIR)
  /\ (forall e, firstFailure here = Some e ->
                getTsFiles resolve extname dir here = Fs.Fail e)
  /\ (forall files,
         getTsFiles resolve extname dir here = Fs.Ok files ->
         files = filter (isTsPath extname) (regularFilesUnder resolve dir here)
         /\ forall path,
              In path files <->
              In path (regularFilesUnder resolve dir here)
              /\ (extname path = ".ts" \/ extname path = ".tsx")%string).
Proof.
  assert (Hequation : forall here dir,
    getTsFiles resolve extname dir here
    = match here with
      | Fs.NotDirectory => Fs.Fail Fs.ENOTDIR
      | _ =>
          match firstFailure here with
          | Some e => Fs.Fail e
          | None =>
              Fs.Ok (filter (isTsPath extname)
                            (regularFilesUnder resolve dir here))
          end
      end).
  { clear dir here. intro here.
    induction here as [|e|e|listing IHlisting] using Entry_listing_ind;
      intro dir; try reflexivity.
    cbn [getTsFiles regularFilesUnder].
    match goal with
    | |- ?loop listing [] = _ =>
        assert (Hloop : forall files,
          loop listing files
          = match firstFailure (Fs.Directory listing) with
            | Some e => Fs.Fail e
            | None =>
                Fs.Ok (files ++ filter (isTsPath extname)
                         (flat_map
                            (fun named : string * Fs.Entry =>
                               match snd named with
                               | Fs.NotDirectory => [resolve dir (fst named)]
                               | _ =>
                                   regularFilesUnder resolve
                                     (resolve dir (fst named)) (snd named)
                               end) listing))
            end)
    end.
    { induction IHlisting as [|[name entry] rest Hentry _ IHrest];
        intro files.
      - simpl. now rewrite app_nil_r.
      - rewrite firstFailure_cons. cbn [flat_map fst snd].
        rewrite filter_app. cbn [snd] in Hentry.
        remember (firstFailure (Fs.Directory rest)) as restFailure.
        destruct entry as [|sub|e|e].
        + change (firstFailure Fs.NotDirectory) with (@None Fs.Error).
          cbn [Fs.statSync_isDirectory filter].
          destruct (isTsPath extname (resolve dir name)).
          * rewrite IHrest.
            destruct restFailure; [reflexivity|].
            now rewrite <- app_assoc.
          * rewrite IHrest. reflexivity.
        + cbn [Fs.statSync_isDirectory].
          rewrite (Hentry (resolve dir name)).
          destruct (firstFailure (Fs.Directory sub)); [reflexivity|].
          rewrite IHrest.
          destruct restFailure; [reflexivity|].
          now rewrite <- app_assoc.
        + reflexivity.
        + reflexivity. }
    apply Hloop. }
  split; [|split; [|split]].
  - rewrite Hequation. destruct here as [|listing|e|e].
    + split; [intros [files Hfiles]; discriminate
             | intros [[listing Hlisting] _]; discriminate].
    + destruct (firstFailure (Fs.Directory listing)) as [e|] eqn:Hfirst.
      * split; [intros [files Hfiles]; discriminate|].
        intros [_ Hsound]. apply firstFailure_none in Hsound. congruence.
      * split; [|intros _; eexists; reflexivity].
        intros _. split; [now exists listing | now apply firstFailure_none].
    + split; [intros [files Hfiles]; discriminate
             | intros [[listing Hlisting] _]; discriminate].
    + split; [intros [files Hfiles]; discriminate
             | intros [[listing Hlisting] _]; discriminate].
  - intros ->. reflexivity.
  - intros e Hfirst. rewrite Hequation.
    destruct here; [discriminate | | |]; now rewrite Hfirst.
  - intros files Hfiles. rewrite Hequation in Hfiles.
    assert (Hlist : files = filter (isTsPath extname)
                                   (regularFilesUnder resolve dir here)).
    { destruct here; [discriminate | | |];
        destruct (firstFailure _); try discriminate;
        now injection Hfiles as <-. }
    split; [exact Hlist|]. intro path. rewrite Hlist, filter_In.
    unfold isTsPath. rewrite orb_true_iff, !String.eqb_eq. tauto.
Qed.

End DiscoveryProperties.

(* ================================================================== *)
(** ** The report *)

Lemma string_append_assoc (a b c : string) :
  ((a ++ b) ++ c = a ++ (b ++ c))%string.
Proof. induction a as [|ch a IH]; simpl; [reflexivity | now rewrite IH]. Qed.

Lemma join_cons (separator x y : string) (rest : list string) :
  join separator (x :: y :: rest)
  = (x ++ separator ++ join separator (y :: rest))%string.
Proof. reflexivity. Qed.

Lemma join_app (separator : string) (x y : string) (xs ys : list string) :
  join separator ((x :: xs) ++ y :: ys)
  = (join separator (x :: xs) ++ separator ++ join separator (y :: ys))%string.
Proof.
  revert x. induction xs as [|x' xs IH]; intro x.
  - reflexivity.
  - change ((x :: x' :: xs) ++ y :: ys) with (x :: (x' :: xs) ++ y :: ys).
    change ((x' :: xs) ++ y :: ys) with (x' :: xs ++ y :: ys).
    rewrite join_cons.
    change (x' :: xs ++ y :: ys) with ((x' :: xs) ++ y :: ys).
    rewrite IH, join_cons. now rewrite !string_append_assoc.
Qed.

Section ReportProperties.

Variable toFixed : Q -> nat -> string.

(** X17.  The report of no result is the empty text, the report of one
    result is its block, and the report of two non-empty runs of results
    put together is their two reports with one empty line between: blocks
    are separated, not terminated. *)
Theorem formatHumanReadable_composes :
  formatHumanReadable toFixed [] = ""%string
  /\ (forall s, formatHumanReadable toFixed [s] = formatResult toFixed s)
  /\ (forall x xs y ys,
         formatHumanReadable toFixed ((x :: xs) ++ y :: ys)
         = (formatHumanReadable toFixed (x :: xs)
            ++ (LF ++ LF) ++ formatHumanReadable toFixed (y :: ys))%string).
Proof.
  split; [reflexivity|]. split; [reflexivity|].
  intros x xs y ys. unfold formatHumanReadable.
  rewrite map_app. cbn [map]. apply join_app.
Qed.

End ReportProperties.

(* ================================================================== *)
(** ** Declarations and nested functions *)

(** X18.  In a file whose variable declarations all sit in [const] lists
    (their list has the [Const] flag and not the [Let] flag), preferConst
    is 1 and avoidVar is 1. *)
Theorem only_const_declarations (sourceFile : Node) :
  Forall (fun v => inConstList v /\ ~ inLetList v)
         (getDescendantsOfKind VariableDeclaration sourceFile) ->
  calculatePreferConst sourceFile == 1 /\ calculateAvoidVar sourceFile = 1.
Proof.
  intro Hall. rewrite Forall_forall in Hall. split.
  - unfold calculatePreferConst.
    rewrite (@filter_none _ (parentIsListWith NodeFlags.Let))
      by (intros v Hv; apply parentIsListWith_not; now destruct (Hall v Hv)).
    cbn [length plus].
    destruct (length _ =? 0)%nat eqn:Hnone; [reflexivity|].
    apply Nat.eqb_neq in Hnone.
    apply ratio_eq_one; [lia | reflexivity].
  - apply avoidVar_one. intros [v [Hv [_ [_ Hconst]]]].
    destruct (Hall v Hv) as [[_ Hflag] _]. contradiction.
Qed.

Lemma only_const_declarations_witness :
  calculatePreferConst constFile == 1 /\ calculateAvoidVar constFile = 1.
Proof.
  apply (@only_const_declarations constFile).
  vm_compute.
  repeat (constructor;
          [split; [split; [reflexivity | discriminate]
                  | intros [_ Hlet]; now apply Hlet]|]).
  constructor.
Defined.

(** The descendants of a descendant are a stretch of the descendants. *)
Lemma descendants_of_descendant (n : Node) :
  forall d, In d (getDescendants n) ->
  exists before after,
    getDescendants n = before ++ getDescendants (node d) ++ after.
Proof.
  induction n as [n IHchildren] using Node_children_ind.
  intros d Hd. rewrite Forall_forall in IHchildren.
  destruct n as [kind flags cs returnType modifiers operator structure].
  cbn [getDescendants children] in *.
  set (parent := mkNode kind flags cs returnType modifiers operator structure) in *.
  apply in_flat_map in Hd. destruct Hd as [c [Hc Hd]].
  destruct (in_split _ _ Hc) as [left [right ->]].
  rewrite flat_map_app. cbn [flat_map].
  destruct Hd as [<-|Hd].
  - cbn [node].
    exists (flat_map (fun c0 => {| getParent := parent; node := c0 |}
                                  :: getDescendants c0) left
            ++ [{| getParent := parent; node := c |}]).
    eexists. rewrite <- !app_assoc. cbn [app]. reflexivity.
  - destruct (IHchildren c Hc d Hd) as [before [after Heq]].
    exists (flat_map (fun c0 => {| getParent := parent; node := c0 |}
                                  :: getDescendants c0) left
            ++ {| getParent := parent; node := c |} :: before).
    eexists. rewrite Heq. rewrite <- !app_assoc. cbn [app].
    rewrite <- !app_assoc. reflexivity.
Qed.

Lemma count_in_stretch {A} (p : A -> bool) (before middle after : list A) :
  (length (filter p middle)
   <= length (filter p (before ++ middle ++ after)))%nat.
Proof. rewrite !filter_app, !length_app. lia. Qed.

Lemma nestingDepth_child (n c : Node) :
  In c (children n) -> (nestingDepth c <= nestingDepth n)%nat.
Proof.
  intro Hc. rewrite (nestingDepth_unfold n).
  assert (Hstep : (nestingDepth c
                   <= (if existsb (kind_eqb (getKind c)) nestingKinds
                       then S (nestingDepth c) else nestingDepth c))%nat)
    by (destruct (existsb _ _); lia).
  apply (Nat.le_trans _ _ _ Hstep).
  set (g := fun child : Node =>
              if existsb (kind_eqb (getKind child)) nestingKinds
              then S (nestingDepth child) else nestingDepth child).
  change (g c <= list_max (map g (children n)))%nat.
  assert (Hall : Forall (fun k => (k <= list_max (map g (children n)))%nat)
                        (map g (children n)))
    by (apply list_max_le; lia).
  rewrite Forall_forall in Hall. apply Hall. now apply in_map.
Qed.

(** X19.  What is counted below a node is counted below each of its
    ancestors: for a node [d] anywhere below [f], and so for a function
    declared inside the function [f], the complexity and the nesting depth
    of [f] are at least those of [d]. *)
Theorem nested_counts_in_enclosing (f : Node) :
  forall d, In d (getDescendants f) ->
  (forall kind, countOfKind kind (node d) <= countOfKind kind f)%nat
  /\ (complexityOf (node d) <= complexityOf f)%nat
  /\ (nestingDepth (node d) <= nestingDepth f)%nat.
Proof.
  intros d Hd.
  assert (Hcount : forall kind,
            (countOfKind kind (node d) <= countOfKind kind f)%nat).
  { intro kind. unfold countOfKind, getDescendantsOfKind.
    destruct (descendants_of_descendant f d Hd) as [before [after ->]].
    apply count_in_stretch. }
  assert (Hoperator : forall operator,
            (operatorCount operator (node d) <= operatorCount operator f)%nat).
  { intro operator. unfold operatorCount, getDescendantsOfKind.
    destruct (descendants_of_descendant f d Hd) as [before [after ->]].
    rewrite !filter_app, !length_app. lia. }
  split; [exact Hcount|]. split.
  - unfold complexityOf.
    pose proof (Hcount IfStatement). pose proof (Hcount SwitchStatement).
    pose proof (Hcount ForStatement). pose proof (Hcount ForInStatement).
    pose proof (Hcount ForOfStatement). pose proof (Hcount WhileStatement).
    pose proof (Hcount DoStatement). pose proof (Hcount TryStatement).
    pose proof (Hcount CatchClause). pose proof (Hcount ConditionalExpression).
    pose proof (Hoperator AmpersandAmpersandToken).
    pose proof (Hoperator BarBarToken). lia.
  - clear Hcount Hoperator. revert d Hd.
    induction f as [f IHchildren] using Node_children_ind.
    intros d Hd. rewrite Forall_forall in IHchildren.
    assert (Hvia : exists c, In c (children f)
                     /\ (node d = c \/ In d (getDescendants c))).
    { destruct f as [kind flags cs returnType modifiers operator structure].
      cbn [getDescendants children] in *.
      apply in_flat_map in Hd. destruct Hd as [c [Hc [<-|Hd]]];
        exists c; (split; [exact Hc|]); [now left | now right]. }
    destruct Hvia as [c [Hc [->|Hbelow]]].
    + now apply nestingDepth_child.
    + apply (Nat.le_trans _ (nestingDepth c)).
      * now apply IHchildren.
      * now apply nestingDepth_child.
Qed.

Lemma nested_counts_in_enclosing_witness :
  (forall kind, countOfKind kind innerFunction <= countOfKind kind outerFunction)%nat
  /\ (complexityOf innerFunction <= complexityOf outerFunction)%nat
  /\ (nestingDepth innerFunction <= nestingDepth outerFunction)%nat.
Proof.
  apply (@nested_counts_in_enclosing outerFunction
           {| getParent := Trees.plain Block [innerFunction];
              node := innerFunction |}).
  vm_compute. tauto.
Defined.
